(** * WaveSurfer.WebAudio: playback time tracking and loop bookkeeping

    A shallow embedding of [src/webaudio.js].  The backend object is a record
    of its properties, every method is a computation over that record, and
    JavaScript numbers are IEEE binary64 values (Rocq's primitive floats), so
    that division by zero, NaN and the comparison operators behave as they do
    in the engine.

    The connections of the gain, filter and script nodes ([setFilter],
    [createVolumeNode], [createScriptNode], [destroy]) and [getPeaks] are
    modelled after the session, on data of their own.  Out of the model: the
    gain value ([setVolume], [getVolume]), audio decoding ([loadBuffer]) and
    the shared audio contexts. *)

From Stdlib Require Import Floats Bool List ZArith Lia.
Import ListNotations.

Set Warnings "-inexact-float".

(** ** JavaScript values and operators *)

(** The primitive values the backend stores in its properties and receives
    as arguments: [undefined] (a property never assigned, an omitted
    argument), [null], booleans and numbers. *)
Inductive value : Type :=
| VUndefined
| VNull
| VBool (b : bool)
| VNumber (x : float).

(** ToBoolean: [undefined], [null], [false], [+0], [-0] and [NaN] are
    falsy. *)
Definition truthy (v : value) : bool :=
  match v with
  | VUndefined | VNull => false
  | VBool b => b
  | VNumber x => negb (PrimFloat.eqb x 0 || PrimFloat.is_nan x)
  end.

(** ToNumber. *)
Definition to_number (v : value) : float :=
  match v with
  | VUndefined => nan
  | VNull => 0%float
  | VBool true => 1%float
  | VBool false => 0%float
  | VNumber x => x
  end.

(** [null == v]: loose equality with [null] holds for [null] and
    [undefined] only. *)
Definition nullish (v : value) : bool :=
  match v with
  | VUndefined | VNull => true
  | _ => false
  end.

Module JS.

(** Arithmetic on values that are not strings or objects converts both
    operands with ToNumber. *)
Definition add (a b : value) : value :=
  VNumber (PrimFloat.add (to_number a) (to_number b)).
Definition sub (a b : value) : value :=
  VNumber (PrimFloat.sub (to_number a) (to_number b)).
Definition mul (a b : value) : value :=
  VNumber (PrimFloat.mul (to_number a) (to_number b)).
Definition div (a b : value) : value :=
  VNumber (PrimFloat.div (to_number a) (to_number b)).

(** [a > b] and [a <= b]: numeric comparison, false when either side
    converts to NaN. *)
Definition gt (a b : value) : bool :=
  PrimFloat.ltb (to_number b) (to_number a).
Definition le (a b : value) : bool :=
  PrimFloat.leb (to_number a) (to_number b).

(** [a && b] and [a || b] return one of their operands. *)
Definition andalso (a b : value) : value := if truthy a then b else a.
Definition orelse (a b : value) : value := if truthy a then a else b.

End JS.

(** ** The backend object *)

(** A decoded buffer, as far as the backend reads it. *)
Record AudioBuffer : Type := mkBuffer { duration : float }.

(** The buffer source node the backend creates for each play segment. *)
Record BufferSource : Type := mkNode {
  node_buffer : option AudioBuffer;
  node_playbackRate : value;
  node_loop : value;
  node_loopStart : value;
  node_loopEnd : value;
  node_started : option (value * value * value);
  node_stopped : bool;
  node_connected : bool
}.

(** The events handed to [fireEvent], with their argument. *)
Inductive event : Type :=
| EvPlay
| EvPause
| EvFinish (time : value)
| EvAudioprocess (time : value).

(** The properties of [WaveSurfer.WebAudio].  [ac_currentTime] is
    [this.ac.currentTime], the hardware clock, which only the platform
    advances; [fired] is the list of [fireEvent] calls so far, oldest
    first. *)
Record session : Type := mkSession {
  loopSelection : value;
  ac_currentTime : float;
  playBackrate : value;
  buffer : option AudioBuffer;
  source : option BufferSource;
  paused : value;
  lastStart : value;
  startTime : value;
  lastPause : value;
  scheduledPause : value;
  loop : value;
  loopStart : value;
  loopEnd : value;
  loopedAtStart : value;
  lastLoop : value;
  fired : list event
}.

(** The properties a method assigns a primitive value to. *)
Inductive prop : Type :=
| PlayBackrate | Paused | LastStart | StartTime | LastPause | ScheduledPause
| Loop | LoopStart | LoopEnd | LoopedAtStart | LastLoop.

(** [this.p = v]. *)
Definition assign (p : prop) (v : value) (s : session) : session :=
  {| loopSelection := loopSelection s;
     ac_currentTime := ac_currentTime s;
     playBackrate := match p with PlayBackrate => v | _ => playBackrate s end;
     buffer := buffer s;
     source := source s;
     paused := match p with Paused => v | _ => paused s end;
     lastStart := match p with LastStart => v | _ => lastStart s end;
     startTime := match p with StartTime => v | _ => startTime s end;
     lastPause := match p with LastPause => v | _ => lastPause s end;
     scheduledPause :=
       match p with ScheduledPause => v | _ => scheduledPause s end;
     loop := match p with Loop => v | _ => loop s end;
     loopStart := match p with LoopStart => v | _ => loopStart s end;
     loopEnd := match p with LoopEnd => v | _ => loopEnd s end;
     loopedAtStart :=
       match p with LoopedAtStart => v | _ => loopedAtStart s end;
     lastLoop := match p with LastLoop => v | _ => lastLoop s end;
     fired := fired s |}.

Definition set_buffer (b : option AudioBuffer) (s : session) : session :=
  mkSession (loopSelection s) (ac_currentTime s) (playBackrate s) b
    (source s) (paused s) (lastStart s) (startTime s) (lastPause s)
    (scheduledPause s) (loop s) (loopStart s) (loopEnd s) (loopedAtStart s)
    (lastLoop s) (fired s).

Definition set_source (n : option BufferSource) (s : session) : session :=
  mkSession (loopSelection s) (ac_currentTime s) (playBackrate s) (buffer s)
    n (paused s) (lastStart s) (startTime s) (lastPause s)
    (scheduledPause s) (loop s) (loopStart s) (loopEnd s) (loopedAtStart s)
    (lastLoop s) (fired s).

Definition set_fired (l : list event) (s : session) : session :=
  mkSession (loopSelection s) (ac_currentTime s) (playBackrate s) (buffer s)
    (source s) (paused s) (lastStart s) (startTime s) (lastPause s)
    (scheduledPause s) (loop s) (loopStart s) (loopEnd s) (loopedAtStart s)
    (lastLoop s) l.

(** The platform advancing the hardware clock to [t]. *)
Definition set_clock (t : float) (s : session) : session :=
  mkSession (loopSelection s) t (playBackrate s) (buffer s)
    (source s) (paused s) (lastStart s) (startTime s) (lastPause s)
    (scheduledPause s) (loop s) (loopStart s) (loopEnd s) (loopedAtStart s)
    (lastLoop s) (fired s).

(** The writable attributes of a source node. *)
Inductive node_prop : Type :=
| NodePlaybackRate | NodeLoop | NodeLoopStart | NodeLoopEnd.

(** [node.p = v]. *)
Definition node_assign (p : node_prop) (v : value) (n : BufferSource)
  : BufferSource :=
  {| node_buffer := node_buffer n;
     node_playbackRate :=
       match p with NodePlaybackRate => v | _ => node_playbackRate n end;
     node_loop := match p with NodeLoop => v | _ => node_loop n end;
     node_loopStart :=
       match p with NodeLoopStart => v | _ => node_loopStart n end;
     node_loopEnd := match p with NodeLoopEnd => v | _ => node_loopEnd n end;
     node_started := node_started n;
     node_stopped := node_stopped n;
     node_connected := node_connected n |}.

Definition node_set_buffer (b : option AudioBuffer) (n : BufferSource)
  : BufferSource :=
  mkNode b (node_playbackRate n) (node_loop n) (node_loopStart n)
    (node_loopEnd n) (node_started n) (node_stopped n) (node_connected n).

(** [node.start(when, offset, length)] (or [noteGrainOn] on old engines). *)
Definition node_start (when offset length : value) (n : BufferSource)
  : BufferSource :=
  mkNode (node_buffer n) (node_playbackRate n) (node_loop n)
    (node_loopStart n) (node_loopEnd n) (Some (when, offset, length))
    (node_stopped n) (node_connected n).

(** [node.stop(0)] (or [noteOff]). *)
Definition node_stop (n : BufferSource) : BufferSource :=
  mkNode (node_buffer n) (node_playbackRate n) (node_loop n)
    (node_loopStart n) (node_loopEnd n) (node_started n) true
    (node_connected n).

(** [node.connect(gainNode)] and [node.disconnect()]. *)
Definition node_connect (c : bool) (n : BufferSource) : BufferSource :=
  mkNode (node_buffer n) (node_playbackRate n) (node_loop n)
    (node_loopStart n) (node_loopEnd n) (node_started n) (node_stopped n) c.

(** [ac.createBufferSource()]: a node with the platform's defaults. *)
Definition createBufferSource : BufferSource :=
  {| node_buffer := None;
     node_playbackRate := VNumber 1;
     node_loop := VBool false;
     node_loopStart := VNumber 0;
     node_loopEnd := VNumber 0;
     node_started := None;
     node_stopped := false;
     node_connected := false |}.

(** ** Method bodies as computations

    A method either completes with a value or throws; in both cases the
    assignments it has made to the object stay. *)

Inductive error : Type :=
| TypeError.

Inductive completion (A : Type) : Type :=
| Normal (a : A)
| Throw (e : error).

Arguments Normal {A} a.
Arguments Throw {A} e.

Definition M (A : Type) : Type := session -> completion A * session.

Definition ret {A : Type} (a : A) : M A := fun s => (Normal a, s).

Definition bind {A B : Type} (m : M A) (k : A -> M B) : M B :=
  fun s =>
    match m s with
    | (Normal a, s') => k a s'
    | (Throw e, s') => (Throw e, s')
    end.

Definition gets {A : Type} (f : session -> A) : M A :=
  fun s => (Normal (f s), s).

Definition modify (f : session -> session) : M unit :=
  fun s => (Normal tt, f s).

Declare Scope js_scope.
Delimit Scope js_scope with js.

Notation "x <- m ;; k" := (bind m (fun x => k))
  (at level 61, m at next level, right associativity) : js_scope.
Notation "m ;; k" := (bind m (fun _ => k))
  (at level 61, right associativity) : js_scope.

Local Open Scope js_scope.

(** The object after a method has run, and what the method returned. *)
Definition after {A : Type} (m : M A) (s : session) : session := snd (m s).
Definition outcome {A : Type} (m : M A) (s : session) : completion A :=
  fst (m s).

(** [this.p = v] as a statement. *)
Definition this_set (p : prop) (v : value) : M unit := modify (assign p v).

(** A write to, or a method call on, [this.source]: a TypeError when the
    property holds no node. *)
Definition on_source (f : BufferSource -> BufferSource) : M unit :=
  fun s =>
    match source s with
    | Some n => (Normal tt, set_source (Some (f n)) s)
    | None => (Throw TypeError, s)
    end.

Definition fireEvent (e : event) : M unit :=
  modify (fun s => set_fired (fired s ++ [e]) s).

Module WebAudio.

(** [init]: the object as it is once [init(params)] has run, with
    [params.loopSelection], [params.audioRate] and the clock of the audio
    context.  No other property has been assigned yet. *)
Definition init (loopSelection audioRate : value) (clock : float)
  : session :=
  {| loopSelection := loopSelection;
     ac_currentTime := clock;
     playBackrate := JS.orelse audioRate (VNumber 1);
     buffer := None;
     source := None;
     paused := VUndefined;
     lastStart := VUndefined;
     startTime := VUndefined;
     lastPause := VUndefined;
     scheduledPause := VUndefined;
     loop := VUndefined;
     loopStart := VUndefined;
     loopEnd := VUndefined;
     loopedAtStart := VUndefined;
     lastLoop := VUndefined;
     fired := [] |}.

Definition setPlaybackRate (v : value) : M unit :=
  this_set PlayBackrate (JS.orelse v (VNumber 1)).

Definition clearSource : M unit :=
  src <- gets source ;;
  match src with
  | Some _ =>
      on_source (node_connect false) ;;
      modify (set_source None)
  | None => ret tt
  end.

Definition refreshBufferSource : M unit :=
  clearSource ;;
  modify (set_source (Some createBufferSource)) ;;
  rate <- gets playBackrate ;;
  (if truthy rate then on_source (node_assign NodePlaybackRate rate)
   else ret tt) ;;
  b <- gets buffer ;;
  match b with
  | Some _ => on_source (node_set_buffer b)
  | None => ret tt
  end ;;
  on_source (node_connect true).

Definition setupLoop : M unit :=
  this_set LastLoop (VNumber 0) ;;
  this_set LoopedAtStart (VBool false) ;;
  s <- gets id ;;
  if truthy (JS.andalso (loop s) (VBool (JS.le (lastStart s) (loopEnd s))))
  then
    this_set LoopedAtStart (VBool true) ;;
    on_source (node_assign NodeLoop (VBool true)) ;;
    on_source (node_assign NodeLoopStart (loopStart s)) ;;
    on_source (node_assign NodeLoopEnd (loopEnd s))
  else ret tt.

Definition setBuffer (b : option AudioBuffer) : M unit :=
  clearSource ;;
  this_set LastLoop (VNumber 0) ;;
  this_set LastPause (VNumber 0) ;;
  this_set LastStart (VNumber 0) ;;
  this_set StartTime (VNumber 0) ;;
  this_set Paused (VBool true) ;;
  modify (set_buffer b).

Definition loadEmpty : M unit := setBuffer None.

Definition isPaused (s : session) : value := paused s.

Definition getDuration (s : session) : value :=
  match buffer s with
  | Some b => VNumber (duration b)
  | None => VNumber 0
  end.

Definition loopIsActive (s : session) : value :=
  JS.andalso (JS.andalso (JS.andalso (loopSelection s) (loop s)) (lastLoop s))
    (loopedAtStart s).

Definition getCurrentTime (s : session) : value :=
  if truthy (isPaused s) then lastPause s
  else if truthy (loopIsActive s) then
    JS.add (loopStart s)
      (JS.mul (JS.sub (VNumber (ac_currentTime s)) (lastLoop s))
         (playBackrate s))
  else
    JS.add (lastStart s)
      (JS.mul (JS.sub (VNumber (ac_currentTime s)) (startTime s))
         (playBackrate s)).

Definition getPlayedPercents (s : session) : value :=
  JS.orelse (JS.div (getCurrentTime s) (getDuration s)) (VNumber 0).

Definition play (start end_ : value) : M unit :=
  refreshBufferSource ;;
  start <- (if nullish start then gets getCurrentTime else ret start) ;;
  end_ <- (if nullish end_ then gets getDuration else ret end_) ;;
  start <- ret (if JS.gt start end_ then VNumber 0 else start) ;;
  this_set LastStart start ;;
  now <- gets ac_currentTime ;;
  this_set StartTime (VNumber now) ;;
  this_set Paused (VBool false) ;;
  this_set ScheduledPause end_ ;;
  sel <- gets loopSelection ;;
  (if truthy sel then setupLoop else ret tt) ;;
  on_source (node_start (VNumber 0) start (JS.sub end_ start)) ;;
  fireEvent EvPlay.

Definition pause : M unit :=
  s <- gets id ;;
  (if truthy (loopIsActive s) then
     this_set LastPause
       (JS.add (loopStart s)
          (JS.mul (JS.sub (VNumber (ac_currentTime s)) (lastLoop s))
             (playBackrate s)))
   else
     this_set LastPause
       (JS.add (lastStart s)
          (JS.mul (JS.sub (VNumber (ac_currentTime s)) (startTime s))
             (playBackrate s)))) ;;
  this_set Paused (VBool true) ;;
  src <- gets source ;;
  match src with
  | Some _ => on_source node_stop ;; clearSource
  | None => ret tt
  end ;;
  fireEvent EvPause.

(** The script node's [onaudioprocess] handler. *)
Definition onaudioprocess : M unit :=
  p <- gets isPaused ;;
  if negb (truthy p) then
    time <- gets getCurrentTime ;;
    sp <- gets scheduledPause ;;
    (if JS.gt time sp then
       pause ;;
       d <- gets getDuration ;;
       if JS.gt time d then fireEvent (EvFinish time) else ret tt
     else ret tt) ;;
    fireEvent (EvAudioprocess time)
  else ret tt.

Definition updateSelection (startPercent endPercent : value) : M value :=
  sel <- gets loopSelection ;;
  if negb (truthy sel) then ret (VBool false)
  else
    d <- gets getDuration ;;
    if negb (truthy d) then ret VUndefined
    else
      this_set Loop (VBool true) ;;
      this_set LoopStart (JS.mul d startPercent) ;;
      this_set LoopEnd (JS.mul d endPercent) ;;
      s <- gets id ;;
      match source s with
      | Some _ =>
          on_source (node_assign NodeLoop (loop s)) ;;
          on_source (node_assign NodeLoopStart (loopStart s)) ;;
          on_source (node_assign NodeLoopEnd (loopEnd s))
      | None => ret tt
      end ;;
      ret VUndefined.

Definition clearSelection : M value :=
  sel <- gets loopSelection ;;
  if negb (truthy sel) then ret (VBool false)
  else
    this_set Loop (VBool false) ;;
    this_set LoopStart (VNumber 0) ;;
    this_set LoopEnd (VNumber 0) ;;
    s <- gets id ;;
    match source s with
    | Some _ =>
        on_source (node_assign NodeLoop (VBool false)) ;;
        on_source (node_assign NodeLoopStart (loopStart s)) ;;
        on_source (node_assign NodeLoopEnd (loopEnd s))
    | None => ret tt
    end ;;
    ret VUndefined.

Definition logLoop : M unit :=
  s <- gets id ;;
  if truthy (loopedAtStart s) then
    this_set LastLoop (VNumber (ac_currentTime s))
  else ret tt.

End WebAudio.

Import WebAudio.

(** ** What the methods compute

    Closed forms of the values and of the object the methods leave, used to
    state what they do. *)

(** The node [refreshBufferSource] leaves in [this.source]. *)
Definition refreshed_node (s : session) : BufferSource :=
  let n0 := createBufferSource in
  let n1 := if truthy (playBackrate s)
            then node_assign NodePlaybackRate (playBackrate s) n0 else n0 in
  let n2 := match buffer s with
            | Some _ => node_set_buffer (buffer s) n1
            | None => n1
            end in
  node_connect true n2.

(** The two live-position formulas, on the numbers the properties convert
    to. *)
Definition loop_position (s : session) : float :=
  (to_number (loopStart s)
   + (ac_currentTime s - to_number (lastLoop s))
     * to_number (playBackrate s))%float.

Definition segment_position (s : session) : float :=
  (to_number (lastStart s)
   + (ac_currentTime s - to_number (startTime s))
     * to_number (playBackrate s))%float.

(** The position [pause] freezes. *)
Definition frozen_position (s : session) : value :=
  if truthy (loopIsActive s) then VNumber (loop_position s)
  else VNumber (segment_position s).

(** The offsets [play(start, end)] settles on. *)
Definition resolved_end (end_ : value) (s : session) : value :=
  if nullish end_ then getDuration s else end_.

Definition resolved_start (start end_ : value) (s : session) : value :=
  let start0 := if nullish start then getCurrentTime s else start in
  if JS.gt start0 (resolved_end end_ s) then VNumber 0 else start0.

(** The bookkeeping [play] writes, apart from the source node and the
    event. *)
Definition segment_begun (start1 end0 : value) (s : session) : session :=
  let s2 :=
    assign ScheduledPause end0
      (assign Paused (VBool false)
         (assign StartTime (VNumber (ac_currentTime s))
            (assign LastStart start1 s))) in
  if truthy (loopSelection s) then
    assign LoopedAtStart (VBool (truthy (loop s) && JS.le start1 (loopEnd s)))
      (assign LastLoop (VNumber 0) s2)
  else s2.

(** ** Sequences of calls *)

(** What can happen to the object between two looks at it: a method call,
    the node reporting a wrap ([logLoop]), the script node's callback, or the
    platform moving the clock. *)
Inductive call : Type :=
| CallPlay (start end_ : value)
| CallPause
| CallUpdateSelection (startPercent endPercent : value)
| CallClearSelection
| CallSetBuffer (b : option AudioBuffer)
| CallSetupLoop
| CallLogLoop
| CallSetPlaybackRate (v : value)
| CallAudioprocess
| ClockTick (t : float).

(** The object after the call, whether the call completed or threw. *)
Definition perform (c : call) (s : session) : session :=
  match c with
  | CallPlay start end_ => after (play start end_) s
  | CallPause => after pause s
  | CallUpdateSelection a b => after (updateSelection a b) s
  | CallClearSelection => after clearSelection s
  | CallSetBuffer b => after (setBuffer b) s
  | CallSetupLoop => after setupLoop s
  | CallLogLoop => after logLoop s
  | CallSetPlaybackRate v => after (setPlaybackRate v) s
  | CallAudioprocess => after onaudioprocess s
  | ClockTick t => set_clock t s
  end.

Definition perform_all (cs : list call) (s : session) : session :=
  fold_left (fun s c => perform c s) cs s.

(** The loop region with its switch. *)
Definition region (s : session) : value * value * value :=
  (loop s, loopStart s, loopEnd s).

(** The bounds are in order whenever the loop is on. *)
Definition region_ordered (s : session) : Prop :=
  truthy (loop s) = true -> JS.le (loopStart s) (loopEnd s) = true.

(** [updateSelection] takes effect in [s]. *)
Definition selectable (s : session) : bool :=
  truthy (loopSelection s) && truthy (getDuration s).

(** The bounds a call stores are in order: only [updateSelection] stores
    bounds that depend on its arguments, the products of the duration with
    the two fractions. *)
Definition stores_ordered (c : call) (s : session) : bool :=
  match c with
  | CallUpdateSelection a b =>
      negb (selectable s)
      || JS.le (JS.mul (getDuration s) a) (JS.mul (getDuration s) b)
  | _ => true
  end.

Fixpoint all_store_ordered (cs : list call) (s : session) : bool :=
  match cs with
  | [] => true
  | c :: rest => stores_ordered c s && all_store_ordered rest (perform c s)
  end.

(** A number read off the clock. *)
Definition reading (v : value) : Prop :=
  exists t : float, v = VNumber t /\ PrimFloat.is_nan t = false.

(** The clock holds a number and [lastLoop] a reading. *)
Definition clocked (s : session) : Prop :=
  PrimFloat.is_nan (ac_currentTime s) = false /\ reading (lastLoop s).

(** The platform only ever moves the clock to a number. *)
Definition tick_is_number (c : call) : Prop :=
  match c with
  | ClockTick t => PrimFloat.is_nan t = false
  | _ => True
  end.

(** ** A session used in the examples

    A ten-second buffer with loop selection switched on, the region
    [0.2, 0.5) selected, played from second 1 with the clock at 1; the node
    reports a wrap at clock 5. *)

Definition fresh_session : session := init (VBool true) VUndefined 0.

Definition loaded_session : session :=
  after (setBuffer (Some (mkBuffer 10))) fresh_session.

Definition selected_session : session :=
  after (updateSelection (VNumber 0.2) (VNumber 0.5)) loaded_session.

Definition playing_session : session :=
  after (play (VNumber 1) VUndefined) (set_clock 1 selected_session).

Definition looping_session : session :=
  set_clock 6 (after logLoop (set_clock 5 playing_session)).


(** An empty session ([loadEmpty]) on which [play()] is called with the
    clock at 1, looked at with the clock at 2.5. *)
Definition empty_playing_session : session :=
  set_clock 2.5
    (after (play VUndefined VUndefined)
       (set_clock 1 (after loadEmpty fresh_session))).

(** A run of calls on the fresh session: load, select, play, wrap, poll,
    select again, pause. *)
Definition example_calls : list call :=
  [CallSetBuffer (Some (mkBuffer 10));
   CallUpdateSelection (VNumber 0.2) (VNumber 0.5);
   ClockTick 1;
   CallPlay (VNumber 1) VUndefined;
   ClockTick 5;
   CallLogLoop;
   CallAudioprocess;
   CallUpdateSelection (VNumber 0.1) (VNumber 0.9);
   CallSetupLoop;
   CallPause].

(** ** The source node and the session

    What [play] leaves in [this.source], and the shape of the object that
    every method keeps. *)

(** The loop test of [setupLoop] as [play] makes it, on the resolved
    start. *)
Definition begins_in_loop (p : value) (s : session) : bool :=
  truthy (loopSelection s) && truthy (loop s) && JS.le p (loopEnd s).

(** The node [play] creates, configures and starts. *)
Definition played_node (p e : value) (s : session) : BufferSource :=
  let n := refreshed_node s in
  let n' := if begins_in_loop p s then
              node_assign NodeLoopEnd (loopEnd s)
                (node_assign NodeLoopStart (loopStart s)
                   (node_assign NodeLoop (VBool true) n))
            else n in
  node_start (VNumber 0) p (JS.sub e p) n'.

(** A node that is playing into the gain node. *)
Definition node_running (n : BufferSource) : Prop :=
  node_started n <> None /\ node_stopped n = false /\
  node_connected n = true.

(** A source node is held exactly while [paused] is [false], the playback
    rate is truthy, and [paused] holds nothing but a boolean once
    assigned. *)
Definition well_formed (s : session) : Prop :=
  match source s with
  | Some n => paused s = VBool false /\ node_running n
  | None => paused s = VUndefined \/ paused s = VBool true
  end /\
  truthy (playBackrate s) = true.

(** ** The wiring of the gain, filter and script nodes

    The connections the backend makes between the nodes it owns or is handed
    and the destination of the audio context.  A filter node is named by a
    number; [filter_out] gives the outputs of each.  The connection of the
    source node to the gain node is [node_connected] above. *)

Inductive endpoint : Type :=
| ToDestination
| ToFilter (f : nat).

Definition endpoint_eqb (a b : endpoint) : bool :=
  match a, b with
  | ToDestination, ToDestination => true
  | ToFilter x, ToFilter y => Nat.eqb x y
  | _, _ => false
  end.

(** [node.connect(e)] on a node whose outputs are [outs]; the platform does
    not repeat a connection that exists. *)
Definition connect (e : endpoint) (outs : list endpoint) : list endpoint :=
  if existsb (endpoint_eqb e) outs then outs else outs ++ [e].

Record wiring : Type := mkWiring {
  gainNode_out : list endpoint;
  scriptNode_out : list endpoint;
  filter_out : nat -> list endpoint;
  filterNode : option nat
}.

(** [node.disconnect()] on the filter node [f]: all its outputs go. *)
Definition disconnect_filter (f : nat) (w : wiring) : wiring :=
  mkWiring (gainNode_out w) (scriptNode_out w)
    (fun k => if Nat.eqb k f then [] else filter_out w k) (filterNode w).

Definition connect_filter (f : nat) (e : endpoint) (w : wiring) : wiring :=
  mkWiring (gainNode_out w) (scriptNode_out w)
    (fun k => if Nat.eqb k f then connect e (filter_out w k)
              else filter_out w k)
    (filterNode w).

Definition set_gainNode_out (l : list endpoint) (w : wiring) : wiring :=
  mkWiring l (scriptNode_out w) (filter_out w) (filterNode w).

Definition set_scriptNode_out (l : list endpoint) (w : wiring) : wiring :=
  mkWiring (gainNode_out w) l (filter_out w) (filterNode w).

Definition set_filterNode (f : option nat) (w : wiring) : wiring :=
  mkWiring (gainNode_out w) (scriptNode_out w) (filter_out w) f.

(** Before [init]: no node of the backend's, no connection made. *)
Definition unwired : wiring := mkWiring [] [] (fun _ => []) None.

(** [createVolumeNode]: a new gain node, connected to the destination. *)
Definition createVolumeNode (w : wiring) : wiring :=
  set_gainNode_out (connect ToDestination []) w.

(** [createScriptNode], as far as connections go: a new script node,
    connected to the destination. *)
Definition createScriptNode (w : wiring) : wiring :=
  set_scriptNode_out (connect ToDestination []) w.

(** The wiring [init] leaves. *)
Definition init_wiring : wiring := createScriptNode (createVolumeNode unwired).

Definition setFilter (f : option nat) (w : wiring) : wiring :=
  let w1 := match filterNode w with
            | Some old => disconnect_filter old w
            | None => w
            end in
  let w2 := set_gainNode_out [] w1 in
  let w3 := match f with
            | Some n =>
                let w' := connect_filter n ToDestination w2 in
                set_gainNode_out (connect (ToFilter n) (gainNode_out w')) w'
            | None =>
                set_gainNode_out (connect ToDestination (gainNode_out w2)) w2
            end in
  set_filterNode f w3.

(** [destroy], on the object and the wiring: [pause()], then the buffer is
    dropped and the filter, gain and script nodes are disconnected.  (The
    removal of the event handlers, [unAll], touches neither.) *)
Definition destroy (sw : session * wiring)
  : completion unit * (session * wiring) :=
  let (s, w) := sw in
  match pause s with
  | (Normal _, s1) =>
      let s2 := set_buffer None s1 in
      let w1 := match filterNode w with
                | Some f => disconnect_filter f w
                | None => w
                end in
      let w2 := set_gainNode_out [] w1 in
      let w3 := set_scriptNode_out [] w2 in
      (Normal tt, (s2, w3))
  | (Throw e, s1) => (Throw e, (s1, w))
  end.

(** The one path out of the gain node: through the current filter, if there
    is one, to the destination, and no other connection. *)
Definition single_path (w : wiring) : Prop :=
  gainNode_out w =
    [match filterNode w with
     | Some f => ToFilter f
     | None => ToDestination
     end] /\
  forall k : nat,
    filter_out w k =
    match filterNode w with
    | Some f => if Nat.eqb k f then [ToDestination] else []
    | None => []
    end.

(** ** Peaks

    [getPeaks(length)] reads the sample arrays of the buffer, which the
    session methods never look at.  They are given by [pcm], from the buffer
    object to its [length] attribute and its channel arrays
    ([numberOfChannels] is the number of arrays); [length], the number of
    peaks asked for, is a natural number. *)

Record PcmBuffer : Type := mkPcm {
  pcm_length : nat;
  pcm_channels : list (list float)
}.

(** Integers as numbers (exact below 2^53). *)
Definition number_of_Z (z : Z) : float :=
  if (z <? 0)%Z then PrimFloat.opp (of_uint63 (Uint63Axioms.of_Z (- z)))
  else of_uint63 (Uint63Axioms.of_Z z).

Definition number_of_nat (n : nat) : float := number_of_Z (Z.of_nat n).

(** ToInt32, which [~~x] applies: NaN and the infinities give 0, any other
    number is truncated towards zero and wrapped into
    [-2^31 .. 2^31 - 1]. *)
Definition wrap32 (z : Z) : Z :=
  ((z + 2147483648) mod 4294967296 - 2147483648)%Z.

Definition to_int32 (x : float) : Z :=
  match Prim2SF x with
  | S754_finite s m e =>
      let a := if (0 <=? e)%Z then Z.shiftl (Zpos m) e
               else Z.shiftr (Zpos m) (- e) in
      wrap32 (if s then (- a)%Z else a)
  | _ => 0%Z
  end.

(** The rounding of a number stored into a [Float32Array]: to the nearest
    binary32 value, ties to even. *)
Definition fround (x : float) : float :=
  match Prim2SF x with
  | S754_finite s m e => SF2Prim (binary_round 24 128 s m e)
  | _ => x
  end.

(** [~~(sampleSize / 10) || 1]. *)
Definition sample_step (sampleSize : float) : Z :=
  let v := to_int32 (PrimFloat.div sampleSize 10) in
  if (v =? 0)%Z then 1%Z else v.

(** [chan[j]] for an integer [j]: [None] stands for the [undefined] that a
    read outside the array gives. *)
Definition read_sample (chan : list float) (j : Z) : option float :=
  if (j <? 0)%Z then None else nth_error chan (Z.to_nat j).

(** The body of the innermost loop: the first test is [value > peak], the
    second [-value > peak]. *)
Definition louder (value peak : float) : float :=
  if PrimFloat.ltb peak value then value
  else if PrimFloat.ltb peak (PrimFloat.opp value) then PrimFloat.opp value
  else peak.

(** [for (j = start; j < end; j += sampleStep)], run for at most [fuel]
    rounds; [None] when the rounds are used up with [j < end] still. *)
Fixpoint scan (fuel : nat) (chan : list float) (j end_ step : Z)
         (peak : float) : option float :=
  if (j <? end_)%Z then
    match fuel with
    | O => None
    | S fuel' =>
        let peak' := match read_sample chan j with
                     | Some value => louder value peak
                     | None => peak
                     end in
        scan fuel' chan (j + step)%Z end_ step peak'
    end
  else Some peak.

(** What the innermost loop keeps true of [peak]: it is 0 or more, and it
    is 0 or a sample of the channel or the opposite of one. *)
Definition peak_of (chan : list float) (p : float) : Prop :=
  PrimFloat.leb 0 p = true /\
  (p = 0%float \/
   exists v : float, In v chan /\ (p = v \/ p = PrimFloat.opp v)).

(** The peak of bucket [i] of a channel.  With a step of 1 or more the loop
    ends within [end - start] rounds; with a step of 0 or less it never
    ends. *)
Definition bucket_peak (chan : list float) (sampleSize : float) (step : Z)
           (i : nat) : option float :=
  let start := to_int32 (PrimFloat.mul (number_of_nat i) sampleSize) in
  let end_ := to_int32 (PrimFloat.add (number_of_Z start) sampleSize) in
  scan (Z.to_nat (end_ - start)) chan start end_ step 0%float.

(** The loop over [i] for channel number [c], on the peaks from [i] on. *)
Fixpoint channel_pass (c channels : nat) (chan : list float)
         (sampleSize : float) (step : Z) (i : nat) (peaks : list float)
  : option (list float) :=
  match peaks with
  | [] => Some []
  | x :: rest =>
      match bucket_peak chan sampleSize step i with
      | None => None
      | Some peak =>
          let x1 := if Nat.ltb 0 c then fround (PrimFloat.add x peak)
                    else fround peak in
          let x2 := if Nat.eqb c (channels - 1)
                    then fround (PrimFloat.div x1 (number_of_nat channels))
                    else x1 in
          match channel_pass c channels chan sampleSize step (S i) rest with
          | None => None
          | Some rest' => Some (x2 :: rest')
          end
      end
  end.

(** The loop over the channels, from channel number [c] on. *)
Fixpoint channels_pass (c channels : nat) (chans : list (list float))
         (sampleSize : float) (step : Z) (peaks : list float)
  : option (list float) :=
  match chans with
  | [] => Some peaks
  | chan :: rest =>
      match channel_pass c channels chan sampleSize step 0 peaks with
      | None => None
      | Some peaks' =>
          channels_pass (S c) channels rest sampleSize step peaks'
      end
  end.

(** [getPeaks(length)]: [None] when a loop never ends, a TypeError when
    there is no buffer. *)
Definition getPeaks (pcm : AudioBuffer -> PcmBuffer) (length : nat)
           (s : session) : option (completion (list float)) :=
  match buffer s with
  | None => Some (Throw TypeError)
  | Some b =>
      let sampleSize :=
        PrimFloat.div (number_of_nat (pcm_length (pcm b)))
          (number_of_nat length) in
      let sampleStep := sample_step sampleSize in
      let channels := List.length (pcm_channels (pcm b)) in
      match channels_pass 0 channels (pcm_channels (pcm b)) sampleSize
              sampleStep (repeat 0%float length) with
      | None => None
      | Some peaks => Some (Normal peaks)
      end
  end.

(** Eight samples on two channels, for the examples. *)
Definition example_pcm (b : AudioBuffer) : PcmBuffer :=
  mkPcm 8
    [[0.5; -0.75; 0.25; 0; -0.125; 0.0625; 1; -1]%float;
     [0; 0.25; -0.5; 0.5; 0.375; -0.0625; 0; 0.5]%float].

(** ** Basic facts about the operators and the computations *)

Lemma truthy_andalso (a b : value) :
  truthy (JS.andalso a b) = truthy a && truthy b.
Proof.
  unfold JS.andalso. destruct (truthy a) eqn:Ha; simpl; auto.
Qed.


Lemma set_source_same (s : session) : set_source (source s) s = s.
Proof. destruct s; reflexivity. Qed.

Lemma clearSource_run (s : session) :
  clearSource s = (Normal tt, set_source None s).
Proof.
  unfold clearSource, bind, gets, on_source, modify.
  destruct (source s) eqn:Hsrc; simpl; rewrite ?Hsrc.
  - reflexivity.
  - rewrite <- Hsrc, set_source_same. reflexivity.
Qed.

Lemma refreshBufferSource_run (s : session) :
  refreshBufferSource s =
  (Normal tt, set_source (Some (refreshed_node s)) s).
Proof.
  unfold refreshBufferSource, bind. rewrite clearSource_run.
  unfold refreshed_node, gets, modify, on_source, ret; simpl.
  destruct (truthy (playBackrate s)); simpl;
    destruct (buffer s); simpl; reflexivity.
Qed.

Lemma set_source_absent (s : session) :
  source s = None -> set_source None s = s.
Proof. intros H. rewrite <- H. apply set_source_same. Qed.

Lemma on_source_present (f : BufferSource -> BufferSource) (s : session)
      (n : BufferSource) :
  source s = Some n ->
  on_source f s = (Normal tt, set_source (Some (f n)) s).
Proof. intros H. unfold on_source. rewrite H. reflexivity. Qed.

Lemma pause_run (s : session) :
  pause s =
  (Normal tt,
   set_fired (fired s ++ [EvPause])
     (set_source None
        (assign Paused (VBool true)
           (assign LastPause (frozen_position s) s)))).
Proof.
  unfold pause, bind, gets, this_set, modify, id, frozen_position.
  destruct (truthy (loopIsActive s)) eqn:Hact; simpl;
    destruct (source s) eqn:Hsrc; simpl.
  - erewrite on_source_present by (simpl; exact Hsrc).
    rewrite clearSource_run. reflexivity.
  - rewrite set_source_absent by (simpl; exact Hsrc). reflexivity.
  - erewrite on_source_present by (simpl; exact Hsrc).
    rewrite clearSource_run. reflexivity.
  - rewrite set_source_absent by (simpl; exact Hsrc). reflexivity.
Qed.

(** ** Pausing *)

(** C5.  [pause()] called twice with the clock unchanged in between: both
    calls complete normally although the first leaves no source node, and
    the second recomputes the position the first froze: [lastPause] is the
    same after the second call as after the first.  The second call changes
    nothing else on the object either, it only fires [pause] again. *)
Theorem pause_twice_keeps_lastPause (s : session) :
  let s1 := after pause s in
  let s2 := after pause s1 in
  outcome pause s = Normal tt /\
  source s1 = None /\
  ac_currentTime s1 = ac_currentTime s /\
  outcome pause s1 = Normal tt /\
  lastPause s2 = lastPause s1 /\
  s2 = set_fired (fired s1 ++ [EvPause]) s1.
Proof.
  unfold after, outcome. rewrite !pause_run. simpl.
  repeat split.
Qed.

Section TimeComputation.

Local Open Scope float_scope.

Lemma loopIsActive_truthy (s : session) :
  truthy (loopIsActive s) =
  truthy (loopSelection s) && truthy (loop s) && truthy (lastLoop s)
  && truthy (loopedAtStart s).
Proof.
  unfold loopIsActive. rewrite !truthy_andalso. reflexivity.
Qed.



End TimeComputation.

(** ** Starting a play segment *)

Lemma setupLoop_run (s : session) (n : BufferSource) :
  source s = Some n ->
  setupLoop s =
  (Normal tt,
   if truthy (loop s) && JS.le (lastStart s) (loopEnd s) then
     set_source
       (Some (node_assign NodeLoopEnd (loopEnd s)
                (node_assign NodeLoopStart (loopStart s)
                   (node_assign NodeLoop (VBool true) n))))
       (assign LoopedAtStart (VBool true) (assign LastLoop (VNumber 0) s))
   else assign LoopedAtStart (VBool false) (assign LastLoop (VNumber 0) s)).
Proof.
  intros Hsrc.
  unfold setupLoop, bind, gets, this_set, modify, id, ret. simpl.
  rewrite truthy_andalso. simpl.
  destruct (truthy (loop s) && JS.le (lastStart s) (loopEnd s)); simpl.
  - unfold on_source. simpl. rewrite Hsrc. simpl. reflexivity.
  - reflexivity.
Qed.

Lemma play_run (start end_ : value) (s : session) :
  exists n : BufferSource,
    play start end_ s =
    (Normal tt,
     set_fired (fired s ++ [EvPlay])
       (set_source (Some n)
          (segment_begun (resolved_start start end_ s)
             (resolved_end end_ s) s))).
Proof.
  unfold play, bind. rewrite refreshBufferSource_run.
  unfold resolved_start, resolved_end, segment_begun.
  destruct (nullish start); destruct (nullish end_);
  unfold gets, ret, this_set, modify; simpl;
  change (getCurrentTime (set_source (Some (refreshed_node s)) s))
    with (getCurrentTime s);
  change (getDuration (set_source (Some (refreshed_node s)) s))
    with (getDuration s);
  (destruct (truthy (loopSelection s)) eqn:Hsel;
   [ erewrite setupLoop_run by reflexivity; simpl;
     match goal with
     | |- context [truthy (loop s) && ?c] =>
         destruct (truthy (loop s) && c)
     end
   | ];
   unfold on_source, fireEvent, modify; simpl;
   eexists; reflexivity).
Qed.

Section Play.

Local Open Scope float_scope.

(** C3.  [play(start, end)]: a missing [start] is read from
    [getCurrentTime()], a missing [end] from [getDuration()]; a start past
    the end becomes 0; the call completes normally and leaves [lastStart]
    at the start so resolved, [startTime] at the clock, [paused] false and
    [scheduledPause] at the resolved end. *)
Theorem play_resolves_range (start end_ : value) (s : session) :
  let start0 := if nullish start then getCurrentTime s else start in
  let end0 := if nullish end_ then getDuration s else end_ in
  let start1 := if JS.gt start0 end0 then VNumber 0 else start0 in
  let s' := after (play start end_) s in
  outcome (play start end_) s = Normal tt /\
  lastStart s' = start1 /\
  startTime s' = VNumber (ac_currentTime s) /\
  paused s' = VBool false /\
  scheduledPause s' = end0.
Proof.
  destruct (play_run start end_ s) as [n Hrun].
  unfold after, outcome. rewrite Hrun.
  unfold segment_begun, resolved_start, resolved_end.
  destruct (truthy (loopSelection s)); simpl; repeat split.
Qed.

(** [play(8, 2)] on the ten-second buffer plays from 0 up to 2. *)
Example play_8_2_starts_at_0 :
  let s' := after (play (VNumber 8) (VNumber 2)) loaded_session in
  lastStart s' = VNumber 0 /\ scheduledPause s' = VNumber 2 /\
  paused s' = VBool false /\ fired s' = [EvPlay].
Proof. repeat split. Qed.



End Play.

(** ** The polling callback *)

Lemma onaudioprocess_run (s : session) :
  truthy (paused s) = false ->
  onaudioprocess s =
  (Normal tt,
   let time := getCurrentTime s in
   if JS.gt time (scheduledPause s) then
     let s1 := after pause s in
     let s2 := if JS.gt time (getDuration s)
               then set_fired (fired s1 ++ [EvFinish time]) s1 else s1 in
     set_fired (fired s2 ++ [EvAudioprocess time]) s2
   else set_fired (fired s ++ [EvAudioprocess time]) s).
Proof.
  intros Hplaying.
  unfold onaudioprocess, bind, gets, isPaused, after. simpl.
  rewrite Hplaying. simpl.
  destruct (JS.gt (getCurrentTime s) (scheduledPause s)); simpl.
  - rewrite pause_run. simpl.
    change (getDuration
              (set_fired (fired s ++ [EvPause])
                 (set_source None
                    (assign Paused (VBool true)
                       (assign LastPause (frozen_position s) s)))))
      with (getDuration s).
    destruct (JS.gt (getCurrentTime s) (getDuration s)); reflexivity.
  - reflexivity.
Qed.

Lemma onaudioprocess_paused (s : session) :
  truthy (paused s) = true -> onaudioprocess s = (Normal tt, s).
Proof.
  intros Hp. unfold onaudioprocess, bind, gets, isPaused. simpl.
  rewrite Hp. reflexivity.
Qed.

Section Poll.

Local Open Scope float_scope.

(** C2.  One run of the polling callback in a session that is not paused,
    with [time] read from [getCurrentTime()]: the events it fires are, in
    order, [pause] when [time > scheduledPause], then [finish] when
    moreover [time > getDuration()], then [audioprocess] with [time], which
    is always fired and always last.  When [time > scheduledPause] the
    object is left as [pause()] leaves it; otherwise nothing but the event
    list changes. *)
Theorem onaudioprocess_events (s : session) :
  truthy (paused s) = false ->
  let time := getCurrentTime s in
  let crossed := JS.gt time (scheduledPause s) in
  let ended := JS.gt time (getDuration s) in
  let s' := after onaudioprocess s in
  exists new : list event,
    outcome onaudioprocess s = Normal tt /\
    fired s' = fired s ++ new /\
    new = (if crossed
           then EvPause :: (if ended then [EvFinish time] else [])
           else []) ++ [EvAudioprocess time] /\
    (In EvPause new <-> crossed = true) /\
    (In (EvFinish time) new <-> crossed = true /\ ended = true) /\
    s' = set_fired (fired s')
           (if crossed then after pause s else s).
Proof.
  intros Hplaying. simpl.
  unfold after, outcome. rewrite (onaudioprocess_run s Hplaying).
  unfold after. rewrite pause_run. simpl.
  destruct (JS.gt (getCurrentTime s) (scheduledPause s));
    destruct (JS.gt (getCurrentTime s) (getDuration s)); simpl;
    eexists; (split; [reflexivity|]);
    (split; [rewrite <- ?app_assoc; simpl; reflexivity|]);
    (split; [reflexivity|]); simpl; intuition congruence.
Qed.

(** The playing session of the examples polled with the clock at 13, past
    the end of the ten-second buffer. *)
Lemma onaudioprocess_events_witness :
  truthy (paused (set_clock 13 playing_session)) = false /\
  fired (after onaudioprocess (set_clock 13 playing_session)) =
  [EvPlay; EvPause; EvFinish (VNumber 13); EvAudioprocess (VNumber 13)].
Proof.
  split; [reflexivity|].
  destruct (onaudioprocess_events (set_clock 13 playing_session) eq_refl)
    as (new & _ & Hfired & Hnew & _).
  rewrite Hfired, Hnew. reflexivity.
Defined.

End Poll.

(** ** The loop region *)

Lemma updateSelection_run (startPercent endPercent : value) (s : session) :
  updateSelection startPercent endPercent s =
  if negb (truthy (loopSelection s)) then (Normal (VBool false), s)
  else if negb (truthy (getDuration s)) then (Normal VUndefined, s)
  else
    let d := getDuration s in
    let s1 := assign LoopEnd (JS.mul d endPercent)
                (assign LoopStart (JS.mul d startPercent)
                   (assign Loop (VBool true) s)) in
    (Normal VUndefined,
     match source s with
     | Some n =>
         set_source
           (Some (node_assign NodeLoopEnd (JS.mul d endPercent)
                    (node_assign NodeLoopStart (JS.mul d startPercent)
                       (node_assign NodeLoop (VBool true) n))))
           s1
     | None => s1
     end).
Proof.
  unfold updateSelection, bind, gets, ret, this_set, modify, id. simpl.
  destruct (truthy (loopSelection s)); simpl; [|reflexivity].
  destruct (truthy (getDuration s)); simpl; [|reflexivity].
  destruct (source s) eqn:Hsrc; simpl; [|reflexivity].
  unfold on_source. simpl. rewrite Hsrc. simpl. reflexivity.
Qed.

Lemma clearSelection_run (s : session) :
  clearSelection s =
  if negb (truthy (loopSelection s)) then (Normal (VBool false), s)
  else
    let s1 := assign LoopEnd (VNumber 0)
                (assign LoopStart (VNumber 0)
                   (assign Loop (VBool false) s)) in
    (Normal VUndefined,
     match source s with
     | Some n =>
         set_source
           (Some (node_assign NodeLoopEnd (VNumber 0)
                    (node_assign NodeLoopStart (VNumber 0)
                       (node_assign NodeLoop (VBool false) n))))
           s1
     | None => s1
     end).
Proof.
  unfold clearSelection, bind, gets, ret, this_set, modify, id. simpl.
  destruct (truthy (loopSelection s)); simpl; [|reflexivity].
  destruct (source s) eqn:Hsrc; simpl; [|reflexivity].
  unfold on_source. simpl. rewrite Hsrc. simpl. reflexivity.
Qed.

Lemma setBuffer_run (b : option AudioBuffer) (s : session) :
  setBuffer b s =
  (Normal tt,
   set_buffer b
     (assign Paused (VBool true)
        (assign StartTime (VNumber 0)
           (assign LastStart (VNumber 0)
              (assign LastPause (VNumber 0)
                 (assign LastLoop (VNumber 0) (set_source None s))))))).
Proof.
  unfold setBuffer, bind. rewrite clearSource_run. reflexivity.
Qed.

Section Selection.

Local Open Scope float_scope.

(** C7, as stated, fails when loop selection is on and no buffer is
    loaded: the call changes nothing, but what it returns is [undefined],
    not [false]. *)
Lemma updateSelection_without_buffer_returns_undefined :
  buffer fresh_session = None /\
  updateSelection (VNumber 0.2) (VNumber 0.5) fresh_session
  = (Normal VUndefined, fresh_session) /\
  outcome (updateSelection (VNumber 0.2) (VNumber 0.5)) fresh_session
  <> Normal (VBool false).
Proof.
  split; [reflexivity|]. split; [reflexivity|].
  unfold outcome. simpl. discriminate.
Qed.

(** C7, amended.  [updateSelection(startPercent, endPercent)]: with loop
    selection off it changes nothing and returns [false]; with loop
    selection on and a duration of 0 (no buffer) it changes nothing and
    returns [undefined]; otherwise it sets [loop] to true, [loopStart] to
    [duration * startPercent] and [loopEnd] to [duration * endPercent], and
    returns [undefined]. *)
Theorem updateSelection_cases (startPercent endPercent : value)
        (s : session) :
  let r := updateSelection startPercent endPercent s in
  let d := getDuration s in
  if negb (truthy (loopSelection s)) then r = (Normal (VBool false), s)
  else if negb (truthy d) then r = (Normal VUndefined, s)
  else
    fst r = Normal VUndefined /\
    loop (snd r) = VBool true /\
    loopStart (snd r) = JS.mul d startPercent /\
    loopEnd (snd r) = JS.mul d endPercent.
Proof.
  simpl. rewrite updateSelection_run.
  destruct (negb (truthy (loopSelection s))); [reflexivity|].
  destruct (negb (truthy (getDuration s))); [reflexivity|].
  simpl. destruct (source s); repeat split.
Qed.

(** The spec's example: fractions 0.2 and 0.5 of ten seconds, then
    cleared. *)
Example updateSelection_then_clearSelection :
  loopStart selected_session = VNumber 2 /\
  loopEnd selected_session = VNumber 5 /\
  loop selected_session = VBool true /\
  let s' := after clearSelection selected_session in
  loop s' = VBool false /\ loopStart s' = VNumber 0 /\
  loopEnd s' = VNumber 0.
Proof. repeat split. Qed.

(** C10.  [clearSelection()] returns [false] exactly when loop selection
    is off, and then changes nothing; when loop selection is on it returns
    [undefined] and sets [loop] to false and both bounds to 0, whatever the
    buffer (there is no test of the duration). *)
Theorem clearSelection_cases (s : session) :
  let r := clearSelection s in
  (fst r = Normal (VBool false) <-> truthy (loopSelection s) = false) /\
  if truthy (loopSelection s) then
    fst r = Normal VUndefined /\
    loop (snd r) = VBool false /\
    loopStart (snd r) = VNumber 0 /\
    loopEnd (snd r) = VNumber 0 /\
    buffer (snd r) = buffer s
  else r = (Normal (VBool false), s).
Proof.
  simpl. rewrite clearSelection_run.
  destruct (truthy (loopSelection s)); simpl.
  - split; [split; discriminate|].
    destruct (source s); repeat split.
  - split; [split; reflexivity | reflexivity].
Qed.

(** With no buffer at all the region is cleared all the same. *)
Example clearSelection_without_buffer :
  let s := after loadEmpty selected_session in
  buffer s = None /\ loop s = VBool true /\
  outcome clearSelection s = Normal VUndefined /\
  loop (after clearSelection s) = VBool false /\
  loopStart (after clearSelection s) = VNumber 0 /\
  loopEnd (after clearSelection s) = VNumber 0.
Proof. repeat split. Qed.

End Selection.

(** ** Loading a buffer *)

Section SetBuffer.

Local Open Scope float_scope.

(** C9, as stated, fails: a three-second buffer loaded into the playing
    session of the examples inherits the loop region [2, 5) of the
    ten-second buffer, its [loopedAtStart] and its [scheduledPause]. *)
Lemma setBuffer_keeps_loop_region :
  let s' := after (setBuffer (Some (mkBuffer 3))) playing_session in
  loop s' = VBool true /\
  loopStart s' = VNumber 2 /\
  loopEnd s' = VNumber 5 /\
  loopedAtStart s' = VBool true /\
  scheduledPause s' = VNumber 10.
Proof. repeat split. Qed.

(** C9, amended.  [setBuffer(b)] completes normally, adopts [b], drops the
    source node, sets [lastLoop], [lastPause], [lastStart] and [startTime]
    to 0 and [paused] to true; it leaves [loop], [loopStart], [loopEnd],
    [loopedAtStart], [scheduledPause] and [playBackrate] as they were. *)
Theorem setBuffer_resets_position_only (b : option AudioBuffer)
        (s : session) :
  let s' := after (setBuffer b) s in
  outcome (setBuffer b) s = Normal tt /\
  buffer s' = b /\
  source s' = None /\
  lastLoop s' = VNumber 0 /\
  lastPause s' = VNumber 0 /\
  lastStart s' = VNumber 0 /\
  startTime s' = VNumber 0 /\
  paused s' = VBool true /\
  loop s' = loop s /\
  loopStart s' = loopStart s /\
  loopEnd s' = loopEnd s /\
  loopedAtStart s' = loopedAtStart s /\
  scheduledPause s' = scheduledPause s /\
  playBackrate s' = playBackrate s.
Proof.
  unfold after, outcome. rewrite setBuffer_run. simpl. repeat split.
Qed.

End SetBuffer.

(** ** Duration and played fraction *)

Section PlayedPercents.

Local Open Scope float_scope.

Lemma getDuration_without_buffer (s : session) :
  buffer s = None -> getDuration s = VNumber 0.
Proof. intros H. unfold getDuration. rewrite H. reflexivity. Qed.

(** [getPlayedPercents()] is the quotient unless the quotient is falsy (0
    or NaN), and 0 then. *)
Lemma getPlayedPercents_quotient (s : session) :
  let q := PrimFloat.div (to_number (getCurrentTime s))
             (to_number (getDuration s)) in
  getPlayedPercents s = if truthy (VNumber q) then VNumber q else VNumber 0.
Proof. reflexivity. Qed.

(** Nothing loaded and nothing played yet: 0 / 0 is NaN, and the result
    is 0. *)
Example getPlayedPercents_empty_at_rest :
  getPlayedPercents (after loadEmpty fresh_session) = VNumber 0.
Proof. reflexivity. Qed.

(** C6 at that session.  The duration is 0 and the position is 1.5, so the
    quotient is infinite, which is truthy: [getPlayedPercents()] returns
    [Infinity], not 0, and goes on doing so once the polling callback has
    paused the session. *)
Theorem getPlayedPercents_infinite_without_buffer :
  buffer empty_playing_session = None /\
  getDuration empty_playing_session = VNumber 0 /\
  getCurrentTime empty_playing_session = VNumber 1.5 /\
  getPlayedPercents empty_playing_session = VNumber infinity /\
  let polled := after onaudioprocess empty_playing_session in
  paused polled = VBool true /\
  getPlayedPercents polled = VNumber infinity.
Proof. repeat split. Qed.

End PlayedPercents.

(** ** Sequences of calls *)

Lemma setupLoop_after (s : session) :
  after setupLoop s =
  if truthy (loop s) && JS.le (lastStart s) (loopEnd s) then
    match source s with
    | Some n =>
        set_source
          (Some (node_assign NodeLoopEnd (loopEnd s)
                   (node_assign NodeLoopStart (loopStart s)
                      (node_assign NodeLoop (VBool true) n))))
          (assign LoopedAtStart (VBool true) (assign LastLoop (VNumber 0) s))
    | None =>
        assign LoopedAtStart (VBool true) (assign LastLoop (VNumber 0) s)
    end
  else assign LoopedAtStart (VBool false) (assign LastLoop (VNumber 0) s).
Proof.
  destruct (source s) as [n|] eqn:Hsrc.
  - unfold after. rewrite (setupLoop_run s n Hsrc).
    destruct (truthy (loop s) && JS.le (lastStart s) (loopEnd s));
      reflexivity.
  - unfold after, setupLoop, bind, gets, this_set, modify, id, ret. simpl.
    rewrite truthy_andalso. simpl.
    destruct (truthy (loop s) && JS.le (lastStart s) (loopEnd s)); simpl.
    + unfold on_source. simpl. rewrite Hsrc. reflexivity.
    + reflexivity.
Qed.

Lemma logLoop_run (s : session) :
  logLoop s =
  (Normal tt,
   if truthy (loopedAtStart s)
   then assign LastLoop (VNumber (ac_currentTime s)) s else s).
Proof.
  unfold logLoop, bind, gets, this_set, modify, id, ret. simpl.
  destruct (truthy (loopedAtStart s)); reflexivity.
Qed.

Lemma onaudioprocess_frame (s : session) :
  let s' := after onaudioprocess s in
  region s' = region s /\ lastLoop s' = lastLoop s /\
  ac_currentTime s' = ac_currentTime s.
Proof.
  simpl. unfold after.
  destruct (truthy (paused s)) eqn:Hp.
  - rewrite (onaudioprocess_paused s Hp). repeat split.
  - rewrite (onaudioprocess_run s Hp). unfold after. rewrite pause_run.
    simpl.
    destruct (JS.gt (getCurrentTime s) (scheduledPause s));
      [destruct (JS.gt (getCurrentTime s) (getDuration s))|];
      repeat split.
Qed.

(** What each call does to the loop region, to [lastLoop] and to the
    clock. *)
Lemma perform_effect (c : call) (s : session) :
  region (perform c s) =
  match c with
  | CallUpdateSelection a b =>
      if selectable s
      then (VBool true, JS.mul (getDuration s) a, JS.mul (getDuration s) b)
      else region s
  | CallClearSelection =>
      if truthy (loopSelection s)
      then (VBool false, VNumber 0, VNumber 0) else region s
  | _ => region s
  end /\
  lastLoop (perform c s) =
  match c with
  | CallPlay _ _ =>
      if truthy (loopSelection s) then VNumber 0 else lastLoop s
  | CallSetBuffer _ | CallSetupLoop => VNumber 0
  | CallLogLoop =>
      if truthy (loopedAtStart s)
      then VNumber (ac_currentTime s) else lastLoop s
  | _ => lastLoop s
  end /\
  ac_currentTime (perform c s) =
  match c with
  | ClockTick t => t
  | _ => ac_currentTime s
  end.
Proof.
  destruct c; unfold perform.
  - destruct (play_run start end_ s) as [n Hrun].
    unfold after. rewrite Hrun. unfold segment_begun.
    destruct (truthy (loopSelection s)); repeat split.
  - unfold after. rewrite pause_run. repeat split.
  - unfold after, selectable. rewrite updateSelection_run.
    destruct (truthy (loopSelection s)); simpl; [|repeat split].
    destruct (truthy (getDuration s)); simpl; [|repeat split].
    destruct (source s); repeat split.
  - unfold after. rewrite clearSelection_run.
    destruct (truthy (loopSelection s)); simpl; [|repeat split].
    destruct (source s); repeat split.
  - unfold after. rewrite setBuffer_run. repeat split.
  - rewrite setupLoop_after.
    destruct (truthy (loop s) && JS.le (lastStart s) (loopEnd s));
      [destruct (source s)|]; repeat split.
  - unfold after. rewrite logLoop_run.
    destruct (truthy (loopedAtStart s)); repeat split.
  - repeat split.
  - apply onaudioprocess_frame.
  - repeat split.
Qed.

Lemma perform_region (c : call) (s : session) :
  region (perform c s) =
  match c with
  | CallUpdateSelection a b =>
      if selectable s
      then (VBool true, JS.mul (getDuration s) a, JS.mul (getDuration s) b)
      else region s
  | CallClearSelection =>
      if truthy (loopSelection s)
      then (VBool false, VNumber 0, VNumber 0) else region s
  | _ => region s
  end.
Proof. apply perform_effect. Qed.

Lemma region_ordered_of_region (s s' : session) :
  region s' = region s -> region_ordered s -> region_ordered s'.
Proof.
  unfold region, region_ordered. intros Heq Hord.
  injection Heq as Hl Hs He. rewrite Hl, Hs, He. exact Hord.
Qed.

Lemma perform_region_ordered (c : call) (s : session) :
  stores_ordered c s = true ->
  region_ordered s -> region_ordered (perform c s).
Proof.
  intros Hok Hord.
  pose proof (perform_region c s) as Hreg.
  destruct c;
    try (apply (region_ordered_of_region _ _ Hreg); exact Hord).
  - simpl in Hok. destruct (selectable s).
    + simpl in Hok. unfold region, perform in Hreg.
      injection Hreg as Hl Hs He.
      unfold region_ordered, perform. rewrite Hs, He. intros _. exact Hok.
    + apply (region_ordered_of_region _ _ Hreg); exact Hord.
  - destruct (truthy (loopSelection s)).
    + unfold region, perform in Hreg. injection Hreg as Hl Hs He.
      unfold region_ordered, perform. rewrite Hl. simpl. discriminate.
    + apply (region_ordered_of_region _ _ Hreg); exact Hord.
Qed.

Section LoopRegion.

Local Open Scope float_scope.

(** C8, as stated, fails: [updateSelection(0.5, 0.2)] on the ten-second
    buffer switches the loop on with [loopStart] 5 and [loopEnd] 2. *)
Lemma updateSelection_stores_reversed_bounds :
  let s' := perform_all
              [CallSetBuffer (Some (mkBuffer 10));
               CallUpdateSelection (VNumber 0.5) (VNumber 0.2)]
              fresh_session in
  loop s' = VBool true /\ loopStart s' = VNumber 5 /\
  loopEnd s' = VNumber 2 /\ JS.le (loopStart s') (loopEnd s') = false.
Proof. repeat split. Qed.

(** C8, amended.  No method compares the two bounds; [updateSelection] stores
    the products [duration * startPercent] and [duration * endPercent] as
    they come.  From a session whose region is in order, after any sequence
    of calls in which every [updateSelection] that takes effect stores
    products that are in order, the region is in order: [loop] truthy
    implies [loopStart <= loopEnd]. *)
Theorem region_ordered_invariant (cs : list call) (s : session) :
  region_ordered s ->
  all_store_ordered cs s = true ->
  region_ordered (perform_all cs s).
Proof.
  revert s. induction cs as [|c rest IH]; intros s Hord Hall.
  - exact Hord.
  - simpl in Hall. apply andb_prop in Hall. destruct Hall as [Hc Hrest].
    simpl. apply IH.
    + apply perform_region_ordered; assumption.
    + exact Hrest.
Qed.

(** The calls of [example_calls] on the fresh session: the loop ends up
    switched on, with its bounds in order. *)
Lemma region_ordered_invariant_witness :
  region_ordered fresh_session /\
  all_store_ordered example_calls fresh_session = true /\
  truthy (loop (perform_all example_calls fresh_session)) = true /\
  JS.le (loopStart (perform_all example_calls fresh_session))
    (loopEnd (perform_all example_calls fresh_session)) = true.
Proof.
  assert (Hfresh : region_ordered fresh_session).
  { intros Hloop. discriminate Hloop. }
  split; [exact Hfresh|]. split; [reflexivity|]. split; [reflexivity|].
  exact (region_ordered_invariant example_calls fresh_session
           Hfresh eq_refl eq_refl).
Defined.

End LoopRegion.

(** ** Clock readings in [lastLoop] *)

Lemma reading_zero : reading (VNumber 0).
Proof. exists 0%float. split; reflexivity. Qed.

(** Every call keeps a reading in [lastLoop]. *)
Lemma perform_clocked (c : call) (s : session) :
  tick_is_number c -> clocked s -> clocked (perform c s).
Proof.
  intros Htick [Hclock Hlast]. unfold clocked.
  destruct (perform_effect c s) as (_ & Hl & Hc). rewrite Hl, Hc.
  destruct c; simpl in *; try (split; assumption);
    try (split; [assumption | apply reading_zero]).
  - split; [assumption|].
    destruct (truthy (loopSelection s)); [apply reading_zero | assumption].
  - split; [assumption|].
    destruct (truthy (loopedAtStart s)); [|assumption].
    exists (ac_currentTime s). split; [reflexivity | assumption].
Qed.

(** From the first [setBuffer] on, [lastLoop] holds a reading, whatever is
    called afterwards. *)
Lemma clocked_after_setBuffer (b : option AudioBuffer) (cs : list call)
      (s : session) :
  PrimFloat.is_nan (ac_currentTime s) = false ->
  Forall tick_is_number cs ->
  clocked (perform_all cs (after (setBuffer b) s)).
Proof.
  intros Hclock Hticks.
  assert (Hstart : clocked (after (setBuffer b) s)).
  { unfold clocked, after. rewrite setBuffer_run. simpl.
    split; [assumption | apply reading_zero]. }
  revert Hstart. generalize (after (setBuffer b) s) as s0.
  induction Hticks as [|c rest Hc _ IH]; intros s0 Hs0.
  - exact Hs0.
  - simpl. apply IH. apply perform_clocked; assumption.
Qed.

(** ** Position across pause, play and wraps *)

Section Position.

Local Open Scope float_scope.

(** X1.  Pausing a session that is playing freezes the position it was
    reporting: [getCurrentTime()] after [pause()] is what it was just before,
    and stays there wherever the clock moves. *)
Theorem pause_freezes_position (s : session) (t : float) :
  truthy (paused s) = false ->
  getCurrentTime (set_clock t (after pause s)) = getCurrentTime s.
Proof.
  intros Hplaying. unfold after. rewrite pause_run.
  unfold getCurrentTime, isPaused, frozen_position. simpl.
  rewrite Hplaying.
  destruct (truthy (loopIsActive s)); reflexivity.
Qed.

Lemma pause_freezes_position_witness :
  truthy (paused looping_session) = false /\
  getCurrentTime (set_clock 9 (after pause looping_session)) = VNumber 3.
Proof.
  split; [reflexivity|].
  exact (eq_trans (pause_freezes_position looping_session 9 eq_refl)
           eq_refl).
Defined.

(** X2.  A segment begun by [play] is reported from its own start: whatever
    the session was before, no loop is active right after [play], and until
    a wrap is logged the position at clock [t] is the resolved start plus
    the clock time elapsed since [play], scaled by the playback rate. *)
Theorem play_reports_from_segment_start (start end_ : value) (s : session)
        (t : float) :
  let s' := after (play start end_) s in
  truthy (loopIsActive s') = false /\
  getCurrentTime (set_clock t s') =
  VNumber (to_number (resolved_start start end_ s)
           + (t - ac_currentTime s) * to_number (playBackrate s)).
Proof.
  destruct (play_run start end_ s) as [n Hrun].
  unfold after. rewrite Hrun.
  unfold getCurrentTime, isPaused. rewrite !loopIsActive_truthy.
  unfold segment_begun.
  destruct (truthy (loopSelection s)) eqn:Hsel; simpl; rewrite Hsel; simpl.
  - rewrite !andb_false_r. split; reflexivity.
  - split; reflexivity.
Qed.

(** The bookkeeping of the session [play] leaves. *)
Lemma play_fields (start end_ : value) (s : session) :
  let s1 := after (play start end_) s in
  paused s1 = VBool false /\
  lastStart s1 = resolved_start start end_ s /\
  startTime s1 = VNumber (ac_currentTime s) /\
  ac_currentTime s1 = ac_currentTime s /\
  playBackrate s1 = playBackrate s /\
  loopSelection s1 = loopSelection s /\
  loop s1 = loop s /\
  loopStart s1 = loopStart s /\
  lastLoop s1 = (if truthy (loopSelection s) then VNumber 0
                 else lastLoop s) /\
  loopedAtStart s1 =
    (if truthy (loopSelection s)
     then VBool (truthy (loop s)
                 && JS.le (resolved_start start end_ s) (loopEnd s))
     else loopedAtStart s).
Proof.
  destruct (play_run start end_ s) as [n Hrun].
  unfold after. rewrite Hrun. unfold segment_begun.
  destruct (truthy (loopSelection s)); repeat split.
Qed.

(** The position after a wrap is logged at clock [t0] on a session that is
    playing. *)
Lemma position_after_logLoop (s1 : session) (t0 t : float) :
  truthy (paused s1) = false ->
  getCurrentTime (set_clock t (after logLoop (set_clock t0 s1))) =
  if truthy (loopedAtStart s1) then
    if truthy (loopSelection s1) && truthy (loop s1) && truthy (VNumber t0)
    then VNumber (to_number (loopStart s1)
                  + (t - t0) * to_number (playBackrate s1))
    else VNumber (to_number (lastStart s1)
                  + (t - to_number (startTime s1))
                    * to_number (playBackrate s1))
  else
    if truthy (loopSelection s1) && truthy (loop s1)
       && truthy (lastLoop s1) && false
    then VNumber 0
    else VNumber (to_number (lastStart s1)
                  + (t - to_number (startTime s1))
                    * to_number (playBackrate s1)).
Proof.
  intros Hplaying. unfold after. rewrite logLoop_run.
  cbn [loopedAtStart set_clock snd].
  unfold getCurrentTime, isPaused.
  destruct (truthy (loopedAtStart s1)) eqn:Hlooped.
  - rewrite loopIsActive_truthy.
    cbn [paused loopSelection loop lastLoop loopedAtStart loopStart
         lastStart startTime playBackrate ac_currentTime assign set_clock].
    rewrite Hplaying, Hlooped, andb_true_r.
    destruct (truthy (loopSelection s1) && truthy (loop s1)
              && truthy (VNumber t0)); reflexivity.
  - rewrite loopIsActive_truthy.
    cbn [paused loopSelection loop lastLoop loopedAtStart loopStart
         lastStart startTime playBackrate ac_currentTime set_clock].
    rewrite Hplaying, Hlooped, !andb_false_r. reflexivity.
Qed.

(** X3.  A wrap the node reports at clock [t0] after [play] rebases the
    position on [loopStart] exactly when the segment began inside the loop:
    loop selection on, a region selected, the resolved start not past
    [loopEnd] (and [t0] not 0, which the code reads as no wrap).  In every
    other case the wrap is not taken into account and the position goes on
    from the segment start. *)
Theorem wrap_rebases_position (start end_ : value) (s : session)
        (t0 t : float) :
  let p := resolved_start start end_ s in
  let s' := set_clock t (after logLoop
                           (set_clock t0 (after (play start end_) s))) in
  getCurrentTime s' =
  if truthy (loopSelection s) && truthy (loop s) && JS.le p (loopEnd s)
     && truthy (VNumber t0)
  then VNumber (to_number (loopStart s)
                + (t - t0) * to_number (playBackrate s))
  else VNumber (to_number p
                + (t - ac_currentTime s) * to_number (playBackrate s)).
Proof.
  intros p s'. subst s'.
  pose proof (play_fields start end_ s)
    as (Hpaused & Hstart & Htime & _ & Hrate & Hsel & Hloop & HloopStart
        & _ & Hlooped).
  fold p in Hstart, Hlooped.
  generalize dependent (after (play start end_) s). intros s1.
  intros Hpaused Hstart Htime Hrate Hsel Hloop HloopStart Hlooped.
  rewrite position_after_logLoop by (rewrite Hpaused; reflexivity).
  rewrite Hlooped, Hsel, Hloop, HloopStart, Hstart, Htime, Hrate.
  cbn [to_number].
  generalize (truthy (VNumber t0)) as wrapped.
  destruct (truthy (loopSelection s)) eqn:Esel.
  - cbn [truthy]. destruct (truthy (loop s)); cbn [andb];
      [|intros wrapped; reflexivity].
    destruct (JS.le p (loopEnd s)); intros wrapped;
      [|rewrite ?andb_false_r; reflexivity].
    destruct wrapped; reflexivity.
  - intros wrapped. cbn [andb].
    destruct (truthy (loopedAtStart s)); reflexivity.
Qed.

End Position.

(** ** The node behind a segment *)

Lemma play_run_node (start end_ : value) (s : session) :
  play start end_ s =
  (Normal tt,
   set_fired (fired s ++ [EvPlay])
     (set_source
        (Some (played_node (resolved_start start end_ s)
                 (resolved_end end_ s) s))
        (segment_begun (resolved_start start end_ s)
           (resolved_end end_ s) s))).
Proof.
  unfold play, bind. rewrite refreshBufferSource_run.
  unfold played_node, begins_in_loop, resolved_start, resolved_end,
    segment_begun.
  destruct (nullish start); destruct (nullish end_);
  unfold gets, ret, this_set, modify; simpl;
  change (getCurrentTime (set_source (Some (refreshed_node s)) s))
    with (getCurrentTime s);
  change (getDuration (set_source (Some (refreshed_node s)) s))
    with (getDuration s);
  (destruct (truthy (loopSelection s)) eqn:Hsel;
   [ erewrite setupLoop_run by reflexivity; simpl;
     match goal with
     | |- context [truthy (loop s) && ?c] =>
         destruct (truthy (loop s) && c)
     end
   | ];
   unfold on_source, fireEvent, modify; simpl; reflexivity).
Qed.

Section Segment.

Local Open Scope float_scope.

(** X4.  [play] leaves exactly one source node: a new one, connected,
    started at the resolved start for the length [end - start], carrying the
    session's buffer and its playback rate (the platform's 1 when the
    session's rate is falsy).  The node loops exactly when loop
    selection is on, a region is selected and the start is not past
    [loopEnd]; its loop bounds are then the session's, and with loop
    selection on [loopedAtStart] records the same test. *)
Theorem play_configures_node (start end_ : value) (s : session) :
  let p := resolved_start start end_ s in
  let e := resolved_end end_ s in
  let s' := after (play start end_) s in
  exists n : BufferSource,
    source s' = Some n /\
    node_started n = Some (VNumber 0, p, JS.sub e p) /\
    node_stopped n = false /\
    node_connected n = true /\
    node_buffer n = buffer s /\
    node_playbackRate n =
      (if truthy (playBackrate s) then playBackrate s else VNumber 1) /\
    node_loop n = VBool (begins_in_loop p s) /\
    (if begins_in_loop p s
     then node_loopStart n = loopStart s /\ node_loopEnd n = loopEnd s
     else node_loopStart n = VNumber 0 /\ node_loopEnd n = VNumber 0) /\
    (truthy (loopSelection s) = true ->
     loopedAtStart s' = VBool (begins_in_loop p s)).
Proof.
  simpl. unfold after. rewrite play_run_node.
  eexists. split; [reflexivity|].
  unfold played_node, segment_begun, begins_in_loop, refreshed_node.
  destruct (truthy (loopSelection s)) eqn:Hsel; simpl.
  - destruct (truthy (loop s)
              && JS.le (resolved_start start end_ s) (loopEnd s));
      destruct (truthy (playBackrate s)) eqn:Hrate;
      destruct (buffer s); simpl; repeat split.
  - destruct (truthy (playBackrate s)) eqn:Hrate;
      destruct (buffer s); simpl; repeat split; discriminate.
Qed.

End Segment.

Section SegmentBounds.

Local Open Scope float_scope.

(** X5.  The clamp of [play]: the segment it begins has its start past its
    end only when the requested start was past the end and the end is
    negative (the start is then 0).  In particular [play] never leaves
    [lastStart > scheduledPause] for an end that is 0 or more. *)
Theorem play_start_past_end_only_below_zero (start end_ : value)
        (s : session) :
  let start0 := if nullish start then getCurrentTime s else start in
  let e := resolved_end end_ s in
  let s' := after (play start end_) s in
  JS.gt (lastStart s') (scheduledPause s') =
  JS.gt start0 e && JS.gt (VNumber 0) e.
Proof.
  simpl. unfold after. rewrite play_run_node.
  unfold segment_begun, resolved_start.
  destruct (truthy (loopSelection s)); simpl;
    destruct (JS.gt (if nullish start then getCurrentTime s else start)
                (resolved_end end_ s)) eqn:Hgt;
    simpl; try reflexivity; exact Hgt.
Qed.

(** X6.  The automatic stop happens once.  After a run of the polling
    callback that finds the position past [scheduledPause], the session is
    paused without a source node, and further runs of the callback, at any
    clock, fire nothing and change nothing. *)
Theorem onaudioprocess_stops_once (s : session) (t : float) :
  truthy (paused s) = false ->
  JS.gt (getCurrentTime s) (scheduledPause s) = true ->
  let s1 := after onaudioprocess s in
  paused s1 = VBool true /\
  source s1 = None /\
  onaudioprocess (set_clock t s1) = (Normal tt, set_clock t s1).
Proof.
  intros Hplaying Hpast. simpl.
  unfold after. rewrite (onaudioprocess_run s Hplaying).
  unfold after. rewrite pause_run. simpl. rewrite Hpast.
  destruct (JS.gt (getCurrentTime s) (getDuration s));
    (split; [reflexivity|]; split; [reflexivity|];
     apply onaudioprocess_paused; reflexivity).
Qed.

Lemma onaudioprocess_stops_once_witness :
  truthy (paused (set_clock 13 playing_session)) = false /\
  JS.gt (getCurrentTime (set_clock 13 playing_session))
    (scheduledPause (set_clock 13 playing_session)) = true /\
  fired (after onaudioprocess
           (set_clock 14 (after onaudioprocess
                            (set_clock 13 playing_session)))) =
  [EvPlay; EvPause; EvFinish (VNumber 13); EvAudioprocess (VNumber 13)].
Proof.
  split; [reflexivity|]. split; [reflexivity|].
  destruct (onaudioprocess_stops_once (set_clock 13 playing_session) 14
              eq_refl eq_refl) as (_ & _ & Hinert).
  unfold after at 1. rewrite Hinert. reflexivity.
Defined.

End SegmentBounds.

(** ** The shape every call keeps *)

Lemma well_formed_init (sel rate : value) (clock : float) :
  well_formed (init sel rate clock).
Proof.
  unfold well_formed. simpl. split; [left; reflexivity|].
  unfold JS.orelse. destruct (truthy rate) eqn:Hr; [exact Hr | reflexivity].
Qed.

Lemma well_formed_pause (s : session) :
  well_formed s -> well_formed (after pause s).
Proof.
  intros [_ Hrate]. unfold after. rewrite pause_run.
  split; [right; reflexivity | exact Hrate].
Qed.

Lemma perform_well_formed (c : call) (s : session) :
  well_formed s -> well_formed (perform c s).
Proof.
  intros Hwf. pose proof Hwf as [Hsrc Hrate].
  destruct c; unfold perform.
  - unfold after. rewrite play_run_node. unfold well_formed.
    cbn [source set_fired set_source snd].
    split.
    + split.
      * unfold segment_begun.
        destruct (truthy (loopSelection s)); reflexivity.
      * unfold node_running, played_node, refreshed_node. simpl.
        destruct (begins_in_loop (resolved_start start end_ s) s);
          destruct (truthy (playBackrate s)); destruct (buffer s);
          simpl; repeat split; discriminate.
    + unfold segment_begun.
      destruct (truthy (loopSelection s)); exact Hrate.
  - apply well_formed_pause. exact Hwf.
  - unfold after. rewrite updateSelection_run.
    destruct (truthy (loopSelection s)); simpl; [|exact Hwf].
    destruct (truthy (getDuration s)); simpl; [|exact Hwf].
    unfold well_formed in *.
    destruct (source s) eqn:Esrc; simpl; rewrite ?Esrc;
      (split; [exact Hsrc | exact Hrate]).
  - unfold after. rewrite clearSelection_run.
    destruct (truthy (loopSelection s)); simpl; [|exact Hwf].
    unfold well_formed in *.
    destruct (source s) eqn:Esrc; simpl; rewrite ?Esrc;
      (split; [exact Hsrc | exact Hrate]).
  - unfold after. rewrite setBuffer_run.
    split; [right; reflexivity | exact Hrate].
  - rewrite setupLoop_after. unfold well_formed in *.
    destruct (truthy (loop s) && JS.le (lastStart s) (loopEnd s));
      [destruct (source s) eqn:Esrc|]; simpl; rewrite ?Esrc;
      (split; [exact Hsrc | exact Hrate]).
  - unfold after. rewrite logLoop_run.
    destruct (truthy (loopedAtStart s)); [|exact Hwf].
    unfold well_formed in *. simpl. (split; [exact Hsrc | exact Hrate]).
  - unfold after, setPlaybackRate, this_set, modify. simpl.
    unfold well_formed in *. simpl. split; [assumption|].
    unfold JS.orelse. destruct (truthy v) eqn:Hv; [exact Hv | reflexivity].
  - unfold after.
    destruct (truthy (paused s)) eqn:Hp.
    + rewrite (onaudioprocess_paused s Hp). exact Hwf.
    + rewrite (onaudioprocess_run s Hp). unfold after. rewrite pause_run.
      simpl.
      destruct (JS.gt (getCurrentTime s) (scheduledPause s));
        [destruct (JS.gt (getCurrentTime s) (getDuration s))|];
        unfold well_formed in *; simpl;
        try (split; [right; reflexivity | exact Hrate]).
      (split; [exact Hsrc | exact Hrate]).
  - unfold well_formed in *. simpl. (split; [exact Hsrc | exact Hrate]).
Qed.

(** X7.  At every point after [init], whatever has been called since: a
    source node is held exactly while [paused] is [false], and that node has
    been started, not stopped, and is connected (so [pause] only ever stops
    a node that is running, and no node is left behind when paused); the
    playback rate is truthy. *)
Theorem well_formed_always (sel rate : value) (clock : float)
        (cs : list call) :
  well_formed (perform_all cs (init sel rate clock)).
Proof.
  generalize (well_formed_init sel rate clock).
  generalize (init sel rate clock) as s.
  induction cs as [|c rest IH]; intros s Hwf.
  - exact Hwf.
  - simpl. apply IH. apply perform_well_formed. exact Hwf.
Qed.

(** ** Arithmetic of the position formula at the clock of [play]

    The facts about binary64 numbers that the formula needs when no clock
    time has elapsed, from the specification of the primitive operations. *)

Section FloatFacts.

Local Open Scope float_scope.

Lemma is_finite_cases (x : float) :
  PrimFloat.is_finite x = true ->
  match Prim2SF x with
  | S754_zero _ | S754_finite _ _ _ => True
  | S754_infinity _ | S754_nan => False
  end.
Proof.
  unfold PrimFloat.is_finite, PrimFloat.is_nan, PrimFloat.is_infinity.
  rewrite !FloatAxioms.eqb_spec, FloatAxioms.abs_spec.
  change (Prim2SF infinity) with (S754_infinity false).
  destruct (Prim2SF x) as [sx | sx | | sx mx ex]; simpl; intros H;
    try exact I; try discriminate H.
  destruct sx; discriminate H.
Qed.

(** [x - x] is [+0] for every finite [x]. *)
Lemma sub_diag_finite (x : float) :
  PrimFloat.is_finite x = true -> x - x = 0.
Proof.
  intros Hfin. apply Prim2SF_inj. rewrite FloatAxioms.sub_spec.
  change (Prim2SF 0) with (S754_zero false).
  pose proof (is_finite_cases x Hfin) as Hcases.
  destruct (Prim2SF x) as [sx | sx | | sx mx ex]; try contradiction.
  - destruct sx; reflexivity.
  - cbv [SF64sub SFsub]. rewrite Z.sub_diag. reflexivity.
Qed.

(** [0 * r] is a zero for every finite [r]. *)
Lemma mul_zero_finite (r : float) :
  PrimFloat.is_finite r = true ->
  exists b : bool, Prim2SF (0 * r) = S754_zero b.
Proof.
  intros Hfin. rewrite FloatAxioms.mul_spec.
  change (Prim2SF 0) with (S754_zero false).
  pose proof (is_finite_cases r Hfin) as Hcases.
  destruct (Prim2SF r) as [sr | sr | | sr mr er]; try contradiction;
    eexists; reflexivity.
Qed.

(** Adding a zero to [p] gives [p], unless [p] is [-0]. *)
Lemma add_zero_r (p z : float) (b : bool) :
  Prim2SF z = S754_zero b -> p <> (-0) -> p + z = p.
Proof.
  intros Hz Hp. apply Prim2SF_inj. rewrite FloatAxioms.add_spec, Hz.
  destruct (Prim2SF p) as [sp | sp | | sp mp ep] eqn:Ep; try reflexivity.
  destruct sp.
  - exfalso. apply Hp. apply Prim2SF_inj. rewrite Ep. reflexivity.
  - destruct b; reflexivity.
Qed.

(** The position formula with no clock time elapsed. *)
Lemma position_at_start (p now r : float) :
  PrimFloat.is_finite now = true ->
  PrimFloat.is_finite r = true ->
  p <> (-0) ->
  p + (now - now) * r = p.
Proof.
  intros Hnow Hr Hp. rewrite (sub_diag_finite now Hnow).
  destruct (mul_zero_finite r Hr) as [b Hb].
  exact (add_zero_r p (0 * r) b Hb Hp).
Qed.

End FloatFacts.

Lemma loopIsActive_after_play (start end_ : value) (s : session) :
  truthy (loopIsActive (after (play start end_) s)) = false.
Proof.
  unfold after. rewrite play_run_node, loopIsActive_truthy.
  unfold segment_begun.
  destruct (truthy (loopSelection s)) eqn:Hsel; simpl; rewrite Hsel.
  - rewrite !andb_false_r. reflexivity.
  - reflexivity.
Qed.

Section Seek.

Local Open Scope float_scope.

(** X8.  Seeking while paused is exact.  [play(x, end)] followed at once by
    [pause()] (the clock has not moved) leaves the resolved start itself in
    [lastPause], not an approximation of it, and [getCurrentTime()] reports
    it from then on: the elapsed term is [(now - now) * rate], a zero.  This
    holds for a finite clock and a finite rate, and for every start except
    [-0]. *)
Theorem play_then_pause_keeps_start (x end_ : value) (s : session)
        (t : float) :
  let p := to_number (resolved_start x end_ s) in
  let s' := after pause (after (play x end_) s) in
  PrimFloat.is_finite (ac_currentTime s) = true ->
  PrimFloat.is_finite (to_number (playBackrate s)) = true ->
  p <> (-0) ->
  lastPause s' = VNumber p /\
  getCurrentTime (set_clock t s') = VNumber p /\
  fired s' = fired s ++ [EvPlay; EvPause].
Proof.
  intros p s' Hnow Hrate Hp. unfold p in *. clear p.
  set (s1 := after (play x end_) s) in *.
  assert (Hfrozen : frozen_position s1 =
                    VNumber (to_number (resolved_start x end_ s))).
  { unfold frozen_position, s1. rewrite loopIsActive_after_play.
    unfold after. rewrite play_run_node.
    unfold segment_position, segment_begun.
    destruct (truthy (loopSelection s)); simpl;
      rewrite (position_at_start _ _ _ Hnow Hrate Hp); reflexivity. }
  assert (Hfired : fired s1 = fired s ++ [EvPlay]).
  { unfold s1, after. rewrite play_run_node. reflexivity. }
  unfold s', after. rewrite pause_run.
  unfold getCurrentTime, isPaused. simpl.
  rewrite Hfrozen, Hfired, <- app_assoc. repeat split.
Qed.

Lemma play_then_pause_keeps_start_witness :
  PrimFloat.is_finite (ac_currentTime loaded_session) = true /\
  PrimFloat.is_finite (to_number (playBackrate loaded_session)) = true /\
  getCurrentTime
    (set_clock 4 (after pause
                    (after (play (VNumber 2.5) VUndefined) loaded_session)))
  = VNumber 2.5.
Proof.
  split; [reflexivity|]. split; [reflexivity|].
  refine (proj1 (proj2 (play_then_pause_keeps_start (VNumber 2.5) VUndefined
                          loaded_session 4 eq_refl eq_refl _))).
  intros H. discriminate (f_equal (fun f => PrimFloat.Leibniz.eqb f 2.5) H).
Defined.

End Seek.

(** ** The path from the gain node to the destination *)

Lemma single_path_init : single_path init_wiring.
Proof. split; [reflexivity | intros k; reflexivity]. Qed.

Lemma setFilter_single_path (f : option nat) (w : wiring) :
  single_path w -> single_path (setFilter f w).
Proof.
  intros [Hgain Hfilters]. unfold single_path, setFilter.
  destruct f as [n|]; destruct (filterNode w) as [old|]; simpl.
  - split; [reflexivity|]. intros k.
    destruct (Nat.eqb k n) eqn:Hkn.
    + destruct (Nat.eqb k old); [reflexivity|].
      rewrite Hfilters. destruct (Nat.eqb k old); reflexivity.
    + destruct (Nat.eqb k old) eqn:Hko; [reflexivity|].
      rewrite Hfilters, Hko. reflexivity.
  - split; [reflexivity|]. intros k.
    rewrite Hfilters. destruct (Nat.eqb k n); reflexivity.
  - split; [reflexivity|]. intros k.
    destruct (Nat.eqb k old) eqn:Hko; [reflexivity|].
    rewrite Hfilters, Hko. reflexivity.
  - split; [reflexivity|]. intros k. apply Hfilters.
Qed.

Lemma last_cons_default (A : Type) (x : A) (l : list A) (d d' : A) :
  last (x :: l) d = last (x :: l) d'.
Proof.
  revert x. induction l as [|y l IH]; intros x; [reflexivity|].
  change (last (y :: l) d = last (y :: l) d'). apply IH.
Qed.

Lemma setFilter_fold_single_path (fs : list (option nat)) (w0 : wiring) :
  single_path w0 ->
  single_path (fold_left (fun w f => setFilter f w) fs w0) /\
  filterNode (fold_left (fun w f => setFilter f w) fs w0) =
  last fs (filterNode w0).
Proof.
  revert w0. induction fs as [|f rest IH]; intros w0 Hw0.
  - split; [exact Hw0 | reflexivity].
  - simpl fold_left.
    destruct (IH (setFilter f w0) (setFilter_single_path f w0 Hw0))
      as [Hpath Hlast].
    split; [exact Hpath|]. rewrite Hlast.
    destruct rest as [|g rest]; [reflexivity|].
    change (last (f :: g :: rest) (filterNode w0))
      with (last (g :: rest) (filterNode w0)).
    apply last_cons_default.
Qed.


(** X10.  [destroy] releases everything, whatever state the session is in
    and whatever filters have been set since [init]: it completes normally,
    fires a last [pause], and leaves no source node, no buffer, the session
    paused, and no connection from the gain node, the script node or any
    filter node. *)
Theorem destroy_releases_everything (s : session)
        (fs : list (option nat)) :
  let w := fold_left (fun w f => setFilter f w) fs init_wiring in
  let r := destroy (s, w) in
  fst r = Normal tt /\
  source (fst (snd r)) = None /\
  buffer (fst (snd r)) = None /\
  paused (fst (snd r)) = VBool true /\
  fired (fst (snd r)) = fired s ++ [EvPause] /\
  gainNode_out (snd (snd r)) = [] /\
  scriptNode_out (snd (snd r)) = [] /\
  forall k : nat, filter_out (snd (snd r)) k = [].
Proof.
  simpl.
  destruct (setFilter_fold_single_path fs init_wiring single_path_init)
    as [[_ Hfilters] _].
  revert Hfilters.
  generalize (fold_left (fun w f => setFilter f w) fs init_wiring) as w.
  intros w Hfilters. unfold destroy. rewrite pause_run.
  repeat (split; [reflexivity|]).
  intros k. destruct (filterNode w) as [f|]; simpl.
  - destruct (Nat.eqb k f) eqn:Hkf; [reflexivity|].
    rewrite Hfilters, Hkf. reflexivity.
  - apply Hfilters.
Qed.

(** ** Peaks *)

Section Peaks.

Local Open Scope float_scope.

(** A number above one that is 0 or more is itself 0 or more. *)
Lemma nonneg_below (p v : float) :
  (0 <=? p) = true -> (p <? v) = true -> (0 <=? v) = true.
Proof.
  rewrite !FloatAxioms.leb_spec, FloatAxioms.ltb_spec.
  change (Prim2SF 0) with (S754_zero false).
  destruct (Prim2SF p) as [sp | sp | | sp mp ep];
    destruct (Prim2SF v) as [sv | sv | | sv mv ev];
    try destruct sp; try destruct sv; simpl;
    intros Hp Hv; try reflexivity; try discriminate Hp;
    try discriminate Hv.
Qed.

Lemma louder_peak_of (chan : list float) (v p : float) :
  In v chan -> peak_of chan p -> peak_of chan (louder v p).
Proof.
  intros Hin [Hpos Hfrom]. unfold louder.
  destruct (p <? v) eqn:Hv.
  - split; [exact (nonneg_below p v Hpos Hv)|].
    right. exists v. split; [exact Hin | left; reflexivity].
  - destruct (p <? - v) eqn:Hnv.
    + split; [exact (nonneg_below p (- v) Hpos Hnv)|].
      right. exists v. split; [exact Hin | right; reflexivity].
    + split; assumption.
Qed.

Lemma read_sample_In (chan : list float) (j : Z) (v : float) :
  read_sample chan j = Some v -> In v chan.
Proof.
  unfold read_sample. destruct (j <? 0)%Z; [discriminate|].
  apply nth_error_In.
Qed.

Lemma scan_peak_of (chan : list float) (end_ step : Z) (fuel : nat) :
  forall (j : Z) (peak p : float),
    peak_of chan peak ->
    scan fuel chan j end_ step peak = Some p ->
    peak_of chan p.
Proof.
  induction fuel as [|fuel IH]; intros j peak p Hpeak; simpl;
    destruct (j <? end_)%Z; intros Hscan;
    try discriminate Hscan;
    try (injection Hscan as <-; exact Hpeak).
  revert Hscan. apply IH.
  destruct (read_sample chan j) as [v|] eqn:Hread; [|exact Hpeak].
  apply louder_peak_of; [exact (read_sample_In chan j v Hread) | exact Hpeak].
Qed.

(** With a step of 1 or more the loop ends within [end - j] rounds. *)
Lemma scan_ends (chan : list float) (end_ step : Z) (fuel : nat) :
  (1 <= step)%Z ->
  forall (j : Z) (peak : float),
    (end_ - j <= Z.of_nat fuel)%Z ->
    exists p : float, scan fuel chan j end_ step peak = Some p.
Proof.
  intros Hstep. induction fuel as [|fuel IH]; intros j peak Hfuel; simpl;
    destruct (j <? end_)%Z eqn:Hlt; try (eexists; reflexivity).
  - apply Z.ltb_lt in Hlt. lia.
  - apply IH. apply Z.ltb_lt in Hlt. lia.
Qed.

(** With a step of 0 or less a loop that starts never ends: no number of
    rounds is enough. *)
Lemma scan_never_ends (chan : list float) (end_ step : Z) (fuel : nat) :
  (step <= 0)%Z ->
  forall (j : Z) (peak : float),
    (j < end_)%Z -> scan fuel chan j end_ step peak = None.
Proof.
  intros Hstep. induction fuel as [|fuel IH]; intros j peak Hlt; simpl;
    (destruct (j <? end_)%Z eqn:Hb;
     [|apply Z.ltb_ge in Hb; lia]).
  - reflexivity.
  - apply IH. lia.
Qed.

Lemma bucket_peak_ends (chan : list float) (sampleSize : float) (step : Z)
      (i : nat) :
  (1 <= step)%Z ->
  exists p : float, bucket_peak chan sampleSize step i = Some p.
Proof.
  intros Hstep. unfold bucket_peak. apply scan_ends; [exact Hstep | lia].
Qed.

Lemma channel_pass_ends (c channels : nat) (chan : list float)
      (sampleSize : float) (step : Z) :
  (1 <= step)%Z ->
  forall (peaks : list float) (i : nat),
  exists r : list float,
    channel_pass c channels chan sampleSize step i peaks = Some r /\
    length r = length peaks.
Proof.
  intros Hstep. induction peaks as [|x rest IH]; intros i; simpl.
  - exists []. split; reflexivity.
  - destruct (bucket_peak_ends chan sampleSize step i Hstep) as [p Hp].
    rewrite Hp. destruct (IH (S i)) as (r & Hr & Hlen). rewrite Hr.
    eexists. split; [reflexivity|]. simpl. rewrite Hlen. reflexivity.
Qed.

Lemma channels_pass_ends (channels : nat) (sampleSize : float) (step : Z) :
  (1 <= step)%Z ->
  forall (chans : list (list float)) (c : nat) (peaks : list float),
  exists r : list float,
    channels_pass c channels chans sampleSize step peaks = Some r /\
    length r = length peaks.
Proof.
  intros Hstep. induction chans as [|chan rest IH]; intros c peaks; simpl.
  - exists peaks. split; reflexivity.
  - destruct (channel_pass_ends c channels chan sampleSize step Hstep
                peaks 0) as (r & Hr & Hlen).
    rewrite Hr. destruct (IH (S c) r) as (r' & Hr' & Hlen').
    exists r'. split; [exact Hr' | congruence].
Qed.

(** X11.  With a buffer loaded, [getPeaks(length)] ends and returns exactly
    [length] peaks whenever the step it computes,
    [~~(buffer.length / length / 10) || 1], is 1 or more. *)
Theorem getPeaks_returns_length_peaks (pcm : AudioBuffer -> PcmBuffer)
        (length : nat) (s : session) (b : AudioBuffer) :
  buffer s = Some b ->
  (1 <= sample_step (number_of_nat (pcm_length (pcm b))
                     / number_of_nat length))%Z ->
  exists peaks : list float,
    getPeaks pcm length s = Some (Normal peaks) /\
    List.length peaks = length.
Proof.
  intros Hbuf Hstep. unfold getPeaks. rewrite Hbuf.
  destruct (channels_pass_ends (List.length (pcm_channels (pcm b)))
              (number_of_nat (pcm_length (pcm b)) / number_of_nat length)
              _ Hstep (pcm_channels (pcm b)) 0 (repeat 0 length))
    as (r & Hr & Hlen).
  rewrite Hr. exists r. split; [reflexivity|].
  rewrite Hlen. apply repeat_length.
Qed.

Lemma getPeaks_returns_length_peaks_witness :
  buffer loaded_session = Some (mkBuffer 10) /\
  (1 <= sample_step (number_of_nat 8 / number_of_nat 4))%Z /\
  exists peaks : list float,
    getPeaks example_pcm 4 loaded_session = Some (Normal peaks) /\
    List.length peaks = 4%nat.
Proof.
  assert (Hstep : (1 <= sample_step (number_of_nat 8 / number_of_nat 4))%Z).
  { vm_compute. discriminate. }
  split; [reflexivity|]. split; [exact Hstep|].
  exact (getPeaks_returns_length_peaks example_pcm 4 loaded_session
           (mkBuffer 10) eq_refl Hstep).
Defined.

(** The peaks of the example: per bucket of two samples, the mean over the
    two channels of the largest absolute value. *)
Example getPeaks_example :
  getPeaks example_pcm 4 loaded_session =
  Some (Normal [0.5; 0.375; 0.25; 0.75]).
Proof. reflexivity. Qed.

(** X12.  The peak the innermost loop finds for a bucket is never negative
    and never NaN, and it is not made up: it is 0, or one of the channel's
    samples, or the opposite of one. *)
Theorem bucket_peak_from_samples (chan : list float) (sampleSize : float)
        (step : Z) (i : nat) (p : float) :
  bucket_peak chan sampleSize step i = Some p ->
  (0 <=? p) = true /\
  (p = 0 \/ exists v : float, In v chan /\ (p = v \/ p = - v)).
Proof.
  unfold bucket_peak. apply scan_peak_of.
  split; [reflexivity | left; reflexivity].
Qed.

Lemma bucket_peak_from_samples_witness :
  bucket_peak [0.5; -0.75; 0.25; 0] 2 1 0 = Some 0.75 /\
  (0 <=? 0.75) = true.
Proof.
  split; [reflexivity|].
  exact (proj1 (bucket_peak_from_samples [0.5; -0.75; 0.25; 0] 2 1 0 0.75
                  eq_refl)).
Defined.

(** X13.  When the innermost loop does not end.  The step is never 0; and
    the loop over a bucket fails to end exactly when the step is negative
    or 0 and the bucket is not empty ([start < end]). *)
Theorem bucket_peak_never_ends_iff (chan : list float) (sampleSize : float)
        (step : Z) (i : nat) :
  let start := to_int32 (number_of_nat i * sampleSize) in
  let end_ := to_int32 (number_of_Z start + sampleSize) in
  sample_step sampleSize <> 0%Z /\
  (bucket_peak chan sampleSize step i = None <->
   (step <= 0)%Z /\ (start < end_)%Z).
Proof.
  simpl. split.
  - unfold sample_step.
    destruct (to_int32 (sampleSize / 10) =? 0)%Z eqn:Hz;
      [discriminate | apply Z.eqb_neq; exact Hz].
  - unfold bucket_peak.
    set (start := to_int32 (number_of_nat i * sampleSize)).
    set (end_ := to_int32 (number_of_Z start + sampleSize)).
    split.
    + intros Hnone.
      destruct (Z_le_gt_dec step 0) as [Hstep|Hstep].
      * split; [exact Hstep|].
        destruct (Z_lt_ge_dec start end_) as [Hlt|Hge]; [exact Hlt|].
        exfalso.
        destruct (Z.to_nat (end_ - start)); simpl in Hnone;
          (destruct (start <? end_)%Z eqn:Hb;
           [apply Z.ltb_lt in Hb; lia | discriminate Hnone]).
      * exfalso.
        destruct (scan_ends chan end_ step (Z.to_nat (end_ - start))
                    ltac:(lia) start 0 ltac:(lia)) as [p Hp].
        rewrite Hp in Hnone. discriminate Hnone.
    + intros [Hstep Hlt]. apply scan_never_ends; assumption.
Qed.

Lemma channels_pass_none_asked (channels : nat) (sampleSize : float)
      (step : Z) (chans : list (list float)) :
  forall c : nat, channels_pass c channels chans sampleSize step [] = Some [].
Proof.
  induction chans as [|chan rest IH]; intros c; simpl; [reflexivity|].
  apply IH.
Qed.

(** X14.  The edges of [getPeaks].  Without a buffer it throws a TypeError
    (it does not return an empty answer as [getDuration] does).  With a
    buffer, asked for no peaks it returns the empty array whatever the
    samples, and on a buffer without channels it returns [length] zeros. *)
Theorem getPeaks_edges (pcm : AudioBuffer -> PcmBuffer) (length : nat)
        (s : session) :
  match buffer s with
  | None => getPeaks pcm length s = Some (Throw TypeError)
  | Some b =>
      getPeaks pcm 0 s = Some (Normal []) /\
      (pcm_channels (pcm b) = [] ->
       getPeaks pcm length s = Some (Normal (repeat 0 length)))
  end.
Proof.
  unfold getPeaks. destruct (buffer s) as [b|]; [|reflexivity].
  split.
  - simpl repeat. rewrite channels_pass_none_asked. reflexivity.
  - intros Hnone. rewrite Hnone. reflexivity.
Qed.

End Peaks.

(** ** The played fraction at its edges *)

Section PlayedFraction.

Local Open Scope float_scope.

(** A quotient of 0 is a zero or NaN, whatever the divisor: it is falsy. *)
Lemma zero_div_falsy (d : float) : truthy (VNumber (0 / d)) = false.
Proof.
  unfold truthy, PrimFloat.is_nan.
  rewrite !FloatAxioms.eqb_spec, FloatAxioms.div_spec.
  change (Prim2SF 0) with (S754_zero false).
  destruct (Prim2SF d) as [sd | sd | | sd md ed]; reflexivity.
Qed.

(** A number that is neither 0 nor NaN, divided by 0, is an infinity. *)
Lemma div_zero_infinite (x : float) :
  (x =? 0) = false -> PrimFloat.is_nan x = false ->
  PrimFloat.is_infinity (x / 0) = true /\ truthy (VNumber (x / 0)) = true.
Proof.
  unfold truthy, PrimFloat.is_infinity, PrimFloat.is_nan.
  rewrite !FloatAxioms.eqb_spec, FloatAxioms.abs_spec, FloatAxioms.div_spec.
  change (Prim2SF 0) with (S754_zero false).
  change (Prim2SF infinity) with (S754_infinity false).
  destruct (Prim2SF x) as [sx | sx | | sx mx ex]; simpl;
    intros Hzero Hnan; try discriminate Hzero; try discriminate Hnan;
    destruct sx; split; reflexivity.
Qed.

(** X15.  Right after [setBuffer], whatever was loaded (a buffer of any
    duration, or none) and whatever the session was doing,
    [getPlayedPercents()] is 0. *)
Theorem getPlayedPercents_zero_after_setBuffer (b : option AudioBuffer)
        (s : session) :
  getPlayedPercents (after (setBuffer b) s) = VNumber 0.
Proof.
  unfold after. rewrite setBuffer_run.
  unfold getPlayedPercents, getCurrentTime, isPaused, JS.orelse, JS.div.
  cbn [paused lastPause assign set_buffer set_source snd to_number].
  change (truthy (VBool true)) with true. cbv iota.
  cbn [to_number].
  rewrite zero_div_falsy. reflexivity.
Qed.

(** X16.  Without a buffer the played fraction is all or nothing: when the
    position [getCurrentTime()] reports is a number other than 0,
    [getPlayedPercents()] is an infinity; when it is 0 the result is 0. *)
Theorem getPlayedPercents_without_buffer (s : session) (x : float) :
  buffer s = None ->
  getCurrentTime s = VNumber x ->
  PrimFloat.is_nan x = false ->
  exists q : float,
    getPlayedPercents s = VNumber q /\
    if x =? 0 then q = 0 else PrimFloat.is_infinity q = true.
Proof.
  intros Hbuf Htime Hnan.
  unfold getPlayedPercents, getDuration, JS.orelse, JS.div.
  rewrite Hbuf, Htime. cbn [to_number].
  destruct (x =? 0) eqn:Hzero.
  - exists 0. split; [|reflexivity].
    assert (Hfalsy : truthy (VNumber (x / 0)) = false).
    { unfold truthy, PrimFloat.is_nan.
      rewrite !FloatAxioms.eqb_spec, FloatAxioms.div_spec.
      rewrite FloatAxioms.eqb_spec in Hzero.
      change (Prim2SF 0) with (S754_zero false) in *.
      destruct (Prim2SF x) as [sx | sx | | sx mx ex]; simpl in *;
        try reflexivity; try discriminate Hzero;
        destruct sx; discriminate Hzero. }
    rewrite Hfalsy. reflexivity.
  - destruct (div_zero_infinite x Hzero Hnan) as [Hinf Htruthy].
    exists (x / 0). rewrite Htruthy. split; [reflexivity | exact Hinf].
Qed.

Lemma getPlayedPercents_without_buffer_witness :
  buffer empty_playing_session = None /\
  getCurrentTime empty_playing_session = VNumber 1.5 /\
  exists q : float,
    getPlayedPercents empty_playing_session = VNumber q /\
    PrimFloat.is_infinity q = true.
Proof.
  split; [reflexivity|]. split; [reflexivity|].
  exact (getPlayedPercents_without_buffer empty_playing_session 1.5
           eq_refl eq_refl eq_refl).
Defined.

End PlayedFraction.
